(** * Efergy E2 decoder: a functional model of [EfergyRPI_001.c] and
    [EfergyRPI_log.c], and the properties of its demodulation state machine.

    The two C files share one primary decode loop ([main]); they differ in
    [calculate_watts] (the element type of the frame bytes, the cast on the
    exponent byte, the "Checksum Error" line) and [EfergyRPI_log.c] adds the
    analysis mode ([run_in_analysis_mode], [analyze_efergy_message],
    [decode_bytes_from_pulse_counts], [display_frame_data]).

    Conventions of the model.
    - [int] and [long] variables are integers in [Z].  The frame counters
      stay small (see [frame_counters_bounded]); the pulse counter [hctr] is
      only incremented, and the model leaves it unbounded: overflowing it
      needs a high run of 2^31 samples, where signed overflow is undefined
      in C anyway.
    - A [char] object is held as its 8-bit pattern (0..255); reading it at a
      C type goes through [uchar], [schar] or [plain_char].  Whether plain
      [char] is signed is implementation-defined: it is a parameter of the
      [EfergyRPI_001.c] variant.
    - [double] values are Rocq's primitive binary64 floats.  [pow(2, n)] for
      an integer [n] is the exact power of two ([pow2]).
    - Time stamps, the optional log file and the banner are left out: an
      output line is modelled by the value it carries. *)

From Stdlib Require Import ZArith Lia Floats.
From stdpp Require Import base tactics list.

Local Open Scope Z_scope.

(** ** C conversions *)

Module C.

(** [(int16_t) v]: wrap into -32768..32767. *)
Definition int16_t (v : Z) : Z := (v + 32768) mod 65536 - 32768.

(** Conversion to [unsigned char]. *)
Definition uchar (v : Z) : Z := v mod 256.

(** Conversion to [signed char] (two's complement wrap). *)
Definition schar (v : Z) : Z := (v + 128) mod 256 - 128.

(** Conversion to plain [char], signed or not according to the platform. *)
Definition plain_char (char_is_signed : bool) (v : Z) : Z :=
  if char_is_signed then schar v else uchar v.

(** [(double) z] for an [int] or [long] (exact below 2^53). *)
Definition Z2F (z : Z) : float :=
  match z with
  | Z0 => PrimFloat.zero
  | Zpos _ => PrimFloat.of_uint63 (Uint63.of_Z z)
  | Zneg p => PrimFloat.opp (PrimFloat.of_uint63 (Uint63.of_Z (Zpos p)))
  end.

(** [pow(2, e)] for an integer exponent. *)
Definition pow2 (e : Z) : float := Z.ldexp PrimFloat.one e.

(** [(long) f]: truncation toward zero.  Not-a-number and the infinities
    (undefined in C, and not produced by the code) are sent to 0. *)
Definition double_to_long (f : float) : Z :=
  match Prim2SF f with
  | S754_finite sg m e =>
      let mag := if 0 <=? e then Z.shiftl (Zpos m) e else Z.shiftr (Zpos m) (- e) in
      if sg then - mag else mag
  | _ => 0
  end.

(** One sample as the loops read it:
    [(int16_t) (fgetc(stdin) | fgetc(stdin)<<8)], low byte first. *)
Definition read_sample (lo hi : Z) : Z := int16_t (Z.lor lo (Z.shiftl hi 8)).

(** The samples a [while (!feof(stdin))] loop sees for a byte stream:
    [feof] only turns true after a read has failed, so the loop runs once
    more at the end of the stream, with [fgetc] returning [EOF] (-1). *)
Fixpoint samples_of_bytes (bs : list Z) : list Z :=
  match bs with
  | [] => [read_sample (-1) (-1)]
  | [lo] => [read_sample lo (-1)]
  | lo :: hi :: rest => read_sample lo hi :: samples_of_bytes rest
  end.

End C.

(** ** Constants ([#define]s shared by the two files) *)

Definition VOLTAGE : Z := 240.
Definition CENTERSAMP : Z := 100.
Definition PREAMBLE_COUNT : Z := 40.
Definition MINLOWBIT : Z := 3.
Definition MINHIGHBIT : Z := 8.
Definition E2BYTECOUNT : Z := 8.
Definition FRAMEBITCOUNT : Z := E2BYTECOUNT * 8.

(** ** The primary decoder *)

Module Primary.
Import C.

(** Which source file. *)
Inductive variant : Type :=
| Efergy001 (char_is_signed : bool)   (* EfergyRPI_001.c, [char bytes[]] *)
| EfergyLog.                          (* EfergyRPI_log.c, [unsigned char bytes[]] *)

(** A line on standard output. *)
Inductive event : Type :=
| Reading (watts : float)   (* "<date>,<time>,<result>" *)
| ChecksumError.            (* "Checksum Error. ..." (EfergyRPI_log.c only) *)

(** Type at which [calculate_watts] reads [bytes[i]] and holds [tbyte]. *)
Definition elt (v : variant) : Z → Z :=
  match v with
  | Efergy001 sg => plain_char sg
  | EfergyLog => uchar
  end.

(** The exponent handed to [pow]: [bytes[6]] as it is in
    [EfergyRPI_001.c], [(signed char) bytes[6]] in [EfergyRPI_log.c]. *)
Definition exponent (v : variant) (b6 : Z) : Z :=
  match v with
  | Efergy001 _ => b6
  | EfergyLog => schar b6
  end.

(** [tbyte = 0; for (i = 0; i < 7; i++) tbyte += bytes[i]; tbyte &= 0xff;] *)
Definition checksum (v : variant) (bytes : list Z) : Z :=
  let tbyte := foldl (λ tbyte i, elt v (tbyte + elt v (bytes !!! i))) 0 (seq 0 7) in
  elt v (Z.land tbyte 255).

(** [current_adc] and [result] of [calculate_watts]. *)
Definition watts (v : variant) (bytes : list Z) : float :=
  let current_adc := Z2F (elt v (bytes !!! 4%nat) * 256 + elt v (bytes !!! 5%nat)) in
  PrimFloat.div (PrimFloat.mul (Z2F VOLTAGE) current_adc)
    (PrimFloat.div (Z2F 32768) (pow2 (exponent v (elt v (bytes !!! 6%nat))))).

(** [calculate_watts]: the returned [int] and the lines printed. *)
Definition calculate_watts (v : variant) (bytes : list Z) : Z * list event :=
  if checksum v bytes =? elt v (bytes !!! 7%nat) then
    (1, [Reading (watts v bytes)])
  else
    (0, match v with EfergyLog => [ChecksumError] | Efergy001 _ => [] end).

(** The local variables of [main] that live across iterations, and the
    lines printed so far. *)
Record state : Type := mkState {
  prvsamp : Z;
  hctr : Z;
  bitpos : Z;
  bytecount : Z;
  preamble : Z;
  frame : Z;
  dcenter : Z;
  dbit : Z;
  center : Z;
  bytedata : Z;
  bytearray : list Z;
  out : list event
}.

Definition set_prvsamp (x : Z) (s : state) : state :=
  mkState x (hctr s) (bitpos s) (bytecount s) (preamble s) (frame s) (dcenter s)
    (dbit s) (center s) (bytedata s) (bytearray s) (out s).
Definition set_hctr (x : Z) (s : state) : state :=
  mkState (prvsamp s) x (bitpos s) (bytecount s) (preamble s) (frame s) (dcenter s)
    (dbit s) (center s) (bytedata s) (bytearray s) (out s).
Definition set_bitpos (x : Z) (s : state) : state :=
  mkState (prvsamp s) (hctr s) x (bytecount s) (preamble s) (frame s) (dcenter s)
    (dbit s) (center s) (bytedata s) (bytearray s) (out s).
Definition set_bytecount (x : Z) (s : state) : state :=
  mkState (prvsamp s) (hctr s) (bitpos s) x (preamble s) (frame s) (dcenter s)
    (dbit s) (center s) (bytedata s) (bytearray s) (out s).
Definition set_preamble (x : Z) (s : state) : state :=
  mkState (prvsamp s) (hctr s) (bitpos s) (bytecount s) x (frame s) (dcenter s)
    (dbit s) (center s) (bytedata s) (bytearray s) (out s).
Definition set_frame (x : Z) (s : state) : state :=
  mkState (prvsamp s) (hctr s) (bitpos s) (bytecount s) (preamble s) x (dcenter s)
    (dbit s) (center s) (bytedata s) (bytearray s) (out s).
Definition set_dcenter (x : Z) (s : state) : state :=
  mkState (prvsamp s) (hctr s) (bitpos s) (bytecount s) (preamble s) (frame s) x
    (dbit s) (center s) (bytedata s) (bytearray s) (out s).
Definition set_dbit (x : Z) (s : state) : state :=
  mkState (prvsamp s) (hctr s) (bitpos s) (bytecount s) (preamble s) (frame s) (dcenter s)
    x (center s) (bytedata s) (bytearray s) (out s).
Definition set_center (x : Z) (s : state) : state :=
  mkState (prvsamp s) (hctr s) (bitpos s) (bytecount s) (preamble s) (frame s) (dcenter s)
    (dbit s) x (bytedata s) (bytearray s) (out s).
Definition set_bytedata (x : Z) (s : state) : state :=
  mkState (prvsamp s) (hctr s) (bitpos s) (bytecount s) (preamble s) (frame s) (dcenter s)
    (dbit s) (center s) x (bytearray s) (out s).
Definition set_bytearray (x : list Z) (s : state) : state :=
  mkState (prvsamp s) (hctr s) (bitpos s) (bytecount s) (preamble s) (frame s) (dcenter s)
    (dbit s) (center s) (bytedata s) x (out s).
Definition set_out (x : list event) (s : state) : state :=
  mkState (prvsamp s) (hctr s) (bitpos s) (bytecount s) (preamble s) (frame s) (dcenter s)
    (dbit s) (center s) (bytedata s) (bytearray s) x.

(** The state before the loop ("initialize variables").  [bytearray] is
    not initialised in C; every slot is written before it is read. *)
Definition init : state :=
  {| prvsamp := 0; hctr := 0; bitpos := 0; bytecount := 0; preamble := 0;
     frame := 0; dcenter := CENTERSAMP; dbit := 0; center := 0; bytedata := 0;
     bytearray := replicate 9 0; out := [] |}.

(** "re-initialize frame variables" at the end of a calibration. *)
Definition reinit_frame (s : state) : state :=
  let s := set_hctr 0 s in
  let s := set_bytedata 0 s in
  let s := set_bytecount 0 s in
  let s := set_bitpos 0 s in
  let s := set_dbit 0 s in
  let s := set_preamble 0 s in
  set_frame 0 s.

(** The branch [if (dcenter > 0)]. *)
Definition calibrate (s : state) (cursamp : Z) : state :=
  let s := set_dcenter (dcenter s - 1) s in
  let s := set_center (center s + cursamp) s in
  if dcenter s =? 0 then
    let s := set_center (Z.quot (center s) CENTERSAMP) s in
    reinit_frame s
  else s.

(** "reset frame variables" under [if (dbit > FRAMEBITCOUNT)]. *)
Definition reset_frame (s : state) : state :=
  let s := set_bitpos 0 s in
  let s := set_bytecount 0 s in
  let s := set_dbit 0 s in
  let s := set_frame 0 s in
  let s := set_preamble 0 s in
  set_bytedata 0 s.

(** The body of [if (bitpos > 7)]. *)
Definition store_byte (v : variant) (s : state) : state :=
  let s := set_bytearray (<[Z.to_nat (bytecount s) := bytedata s]> (bytearray s)) s in
  let s := set_bytedata 0 s in
  let s := set_bitpos 0 s in
  let s := set_bytecount (bytecount s + 1) s in
  if bytecount s =? E2BYTECOUNT then
    let '(ok, lines) := calculate_watts v (bytearray s) in
    let s := set_out (out s ++ lines) s in
    if ok =? 0 then set_dcenter CENTERSAMP s else s
  else s.

(** The body of [if ((hctr > MINLOWBIT) && (frame == 1))]. *)
Definition classify_bit (v : variant) (s : state) : state :=
  let s := set_dbit (dbit s + 1) s in
  let s := set_bitpos (bitpos s + 1) s in
  let s := set_bytedata (uchar (Z.shiftl (bytedata s) 1)) s in
  let s := if MINHIGHBIT <? hctr s then set_bytedata (Z.lor (bytedata s) 1) s else s in
  let s := if 7 <? bitpos s then store_byte v s else s in
  if FRAMEBITCOUNT <? dbit s then reset_frame s else s.

(** The three guards of the [if ... else if ...] chain. *)
Definition positive_edge (s : state) (cursamp : Z) : bool :=
  (center s <? cursamp) && (prvsamp s <? center s).
Definition continuing_high (s : state) (cursamp : Z) : bool :=
  (center s <? cursamp) && (center s <? prvsamp s).
Definition negative_edge (s : state) (cursamp : Z) : bool :=
  (cursamp <? center s) && (center s <? prvsamp s).

(** The [if ... else if ... else] chain of the decoding branch. *)
Definition cases (v : variant) (s : state) (cursamp : Z) : state :=
  if positive_edge s cursamp then set_hctr 0 s
  else if continuing_high s cursamp then
    let s := set_hctr (hctr s + 1) s in
    if PREAMBLE_COUNT <? hctr s then set_preamble 1 s else s
  else if negative_edge s cursamp then
    let s := if (MINLOWBIT <? hctr s) && (frame s =? 1) then classify_bit v s else s in
    set_hctr 0 s
  else set_hctr 0 s.

(** [if ((hctr == 0) && (preamble == 1))]: end of preamble, start of
    frame data. *)
Definition handoff (s : state) : state :=
  if (hctr s =? 0) && (preamble s =? 1) then
    let s := set_preamble 0 s in
    set_frame 1 s
  else s.

(** One iteration of [while (!feof(stdin))], for the sample just read. *)
Definition tick (v : variant) (s : state) (cursamp : Z) : state :=
  let s := if 0 <? dcenter s then calibrate s cursamp
           else handoff (cases v s cursamp) in
  set_prvsamp cursamp s.

(** The loop over the samples read. *)
Definition run (v : variant) (s : state) (samples : list Z) : state :=
  foldl (tick v) s samples.

(** [main] on a byte stream. *)
Definition main (v : variant) (stdin : list Z) : state :=
  run v init (samples_of_bytes stdin).

(** The frame-assembly part of the state: what a classified bit can
    change, apart from the flags and the pulse counter. *)
Definition assembly (s : state) : Z * Z * Z * Z * list Z * list event * Z :=
  (dbit s, bitpos s, bytecount s, bytedata s, bytearray s, out s, dcenter s).

(** The power lines among the lines printed. *)
Definition readings (l : list event) : list float :=
  omap (λ e, match e with Reading w => Some w | ChecksumError => None end) l.

(** The guard path that leads to the call of [calculate_watts]: a
    decoding tick at a negative edge, with framing active and a pulse
    counter above [MINLOWBIT], whose bit fills the last byte of the frame. *)
Definition completes_frame (s : state) (cursamp : Z) : bool :=
  negb (0 <? dcenter s) && negative_edge s cursamp
  && (MINLOWBIT <? hctr s) && (frame s =? 1)
  && (7 <? bitpos s + 1) && (bytecount s + 1 =? E2BYTECOUNT).

(** The byte that the completing bit closes, and the frame handed to
    [calculate_watts]. *)
Definition closing_byte (s : state) : Z :=
  let b := uchar (Z.shiftl (bytedata s) 1) in
  if MINHIGHBIT <? hctr s then Z.lor b 1 else b.
Definition completed_frame (s : state) : list Z :=
  <[Z.to_nat (bytecount s) := closing_byte s]> (bytearray s).

End Primary.

(** ** Sample streams for the worked examples *)

Module Demo.
Import Primary.

(** A high run of [k] samples at [hi], closed by one sample at [lo]. *)
Definition pulse (lo hi : Z) (k : nat) : list Z := replicate k hi ++ [lo].

(** One data bit: a 5-sample run for 0, a 10-sample run for 1. *)
Definition bit_pulse (lo hi : Z) (b : bool) : list Z :=
  pulse lo hi (if b then 10%nat else 5%nat).

(** The bits of a byte, most significant first. *)
Definition byte_bits (b : Z) : list bool :=
  map (Z.testbit b) [7; 6; 5; 4; 3; 2; 1; 0].

Definition frame_samples (lo hi : Z) (bytes : list Z) : list Z :=
  concat (map (bit_pulse lo hi) (concat (map byte_bits bytes))).

(** A low sample, then a 45-sample preamble run and its closing edge. *)
Definition preamble_run (lo hi : Z) : list Z := lo :: pulse lo hi 45.

(** Warm-up at level [mid], a preamble, and the 64 bits of [bytes]. *)
Definition transmission (mid : Z) (bytes : list Z) : list Z :=
  replicate 100 mid ++ preamble_run (mid - 1000) (mid + 1000)
    ++ frame_samples (mid - 1000) (mid + 1000) bytes.

(** A frame with a matching checksum, and one with a wrong last byte. *)
Definition good_frame : list Z := [9; 0; 0; 0; 1; 44; 2; 56].
Definition bad_frame : list Z := [9; 0; 0; 0; 1; 44; 2; 57].

(** A frame whose ADC high byte and exponent byte have their top bit set,
    with a matching checksum. *)
Definition top_bit_frame : list Z := [0; 0; 0; 0; 128; 0; 255; 127].

(** The same transmissions up to, and without, the sample that closes the
    last bit. *)
Definition good_history : list Z := removelast (transmission 0 good_frame).
Definition bad_history : list Z := removelast (transmission 0 bad_frame).

(** The transmission of [bad_frame] around the level 1000, without the
    sample that closes its last bit. *)
Definition stale_history : list Z := removelast (transmission 1000 bad_frame).

(** The state after the warm-up and the preamble: framing is active. *)
Definition framing (v : variant) : state :=
  run v init (replicate 100 0 ++ preamble_run (-1000) 1000).

(** Framing active and a high run of ten samples in progress. *)
Definition mid_run (v : variant) : state :=
  run v (framing v) (replicate 10 1000).

(** The frame storage after [good_frame] has been received. *)
Definition good_storage : list Z := good_frame ++ [0].

(** The two bytes of a sample on the stream, low byte first, and the byte
    stream of a list of samples. *)
Definition bytes_of_sample (x : Z) : list Z := [x mod 256; (x / 256) mod 256].
Definition bytes_of_samples (samples : list Z) : list Z :=
  concat (map bytes_of_sample samples).

(** The pulse counts of a frame for the analysis decoder: 5 for a 0 bit,
    10 for a 1 bit. *)
Definition frame_widths (bytes : list Z) : list Z :=
  map (λ bit : bool, if bit then 10 else 5) (concat (map byte_bits bytes)).

(** A stream for the analysis mode: 1400 samples swinging around 0. *)
Definition swing : list Z :=
  concat (replicate 70 (replicate 10 (-500) ++ replicate 10 500)).

(** A preamble for the analysis mode, found around the centres 0 and 200,
    and a stream of two bursts, each a preamble and as many samples as the
    capture buffer holds. *)
Definition preamble_swing : list Z := replicate 42 1000 ++ replicate 42 (-1000) ++ [1000].
Definition two_bursts : list Z :=
  preamble_swing ++ replicate 1368 400 ++ preamble_swing ++ replicate 1368 (-400).

End Demo.

(** ** The analysis mode of [EfergyRPI_log.c] *)

Module Analysis.
Import C.

Definition MIN_POSITIVE_PREAMBLE_SAMPLES : Z := 40.
Definition MIN_NEGATIVE_PREAMBLE_SAMPLES : Z := 40.
Definition ANALYZEBYTECOUNT : Z := 9.
Definition ANALYZEBITCOUNT : Z := ANALYZEBYTECOUNT * 8.
Definition SAMPLES_PER_BIT : Z := 19.
Definition SAMPLE_STORE_SIZE : Z := ANALYZEBITCOUNT * SAMPLES_PER_BIT.

(** The globals of the analysis mode.  [sample_store_overrun] is declared
    in the source and never used. *)
Record globals : Type := mkGlobals {
  sample_storage : list Z;
  sample_store_index : Z;
  analysis_wavecenter : Z
}.

(** The message that opens the decoded-frame line. *)
Inductive polarity : Type :=
| PositivePulses   (* "Decode from positive pulses: " *)
| NegativePulses.  (* "Decode from negative pulses: " *)

(** The decoded-frame line of [display_frame_data]: the message, the
    bytes shown, the checksum byte, and the kW figure when it is in range
    ([None] for "<out of range>"). *)
Record report : Type := mkReport {
  msg : polarity;
  shown : list Z;
  chk : Z;
  kW : option float
}.

(** The loop of [decode_bytes_from_pulse_counts] over the stored counts;
    the local [dbit] is only incremented and is left out. *)
Fixpoint decode_loop (pulse_store : list Z) (bitpos bytedata bytecount : Z)
    (bytes : list Z) : Z * list Z :=
  match pulse_store with
  | [] => (bytecount, bytes)
  | p :: rest =>
      if MINLOWBIT <? p then
        let bitpos := bitpos + 1 in
        let bytedata := uchar (Z.shiftl bytedata 1) in
        let bytedata := if MINHIGHBIT <? p then Z.lor bytedata 1 else bytedata in
        if 7 <? bitpos then
          let bytes := <[Z.to_nat bytecount := bytedata]> bytes in
          let bytecount := bytecount + 1 in
          if bytecount =? ANALYZEBYTECOUNT then (bytecount, bytes)
          else decode_loop rest 0 0 bytecount bytes
        else decode_loop rest bitpos bytedata bytecount bytes
      else decode_loop rest bitpos bytedata bytecount bytes
  end.

(** [decode_bytes_from_pulse_counts]: the returned byte count and the
    contents of [bytes].  The counts stored so far are the list
    [pulse_store]; its length is [pulse_store_index]. *)
Definition decode_bytes_from_pulse_counts (pulse_store : list Z) : Z * list Z :=
  decode_loop pulse_store 0 0 0 (replicate (Z.to_nat ANALYZEBYTECOUNT) 0).

(** [display_frame_data]. *)
Definition display_frame_data (m : polarity) (bytes : list Z) (bytecount : Z) : report :=
  let tbyte :=
    foldl (λ tbyte i, uchar (tbyte + bytes !!! i)) 0 (seq 0 (Z.to_nat (bytecount - 1))) in
  let current_adc := Z2F (bytes !!! 4%nat * 256 + bytes !!! 5%nat) in
  let result :=
    PrimFloat.div (PrimFloat.mul (Z2F VOLTAGE) current_adc)
      (PrimFloat.div (Z2F 32768) (pow2 (bytes !!! 6%nat))) in
  {| msg := m;
     shown := take (Z.to_nat bytecount) bytes;
     chk := tbyte;
     kW := if PrimFloat.ltb PrimFloat.zero result && PrimFloat.ltb result (Z2F 5000)
           then Some result else None |}.

(** The first loop of [analyze_efergy_message]: sums and counts of the
    samples [>= 0] and of the samples [< 0]. *)
Definition side_sums (samples : list Z) : float * Z * float * Z :=
  foldl (λ '(avg_pos, pos_count, avg_neg, neg_count) x,
           if 0 <=? x then (PrimFloat.add avg_pos (Z2F x), pos_count + 1, avg_neg, neg_count)
           else (avg_pos, pos_count, PrimFloat.add avg_neg (Z2F x), neg_count + 1))
        (PrimFloat.zero, 0, PrimFloat.zero, 0) samples.

(** [difference = avg_neg + ((avg_pos - avg_neg) / 2)]. *)
Definition difference (samples : list Z) : float :=
  let '(avg_pos, pos_count, avg_neg, neg_count) := side_sums samples in
  let avg_pos := if pos_count =? 0 then avg_pos else PrimFloat.div avg_pos (Z2F pos_count) in
  let avg_neg := if neg_count =? 0 then avg_neg else PrimFloat.div avg_neg (Z2F neg_count) in
  PrimFloat.add avg_neg (PrimFloat.div (PrimFloat.sub avg_pos avg_neg) (Z2F 2)).

(** The run counters of the pulse loop and the two stores they fill. *)
Record runs : Type := mkRuns {
  pulse_count : Z;
  space_count : Z;
  pulse_count_storage : list Z;
  space_count_storage : list Z
}.

(** One iteration of the pulse loop, for the sample [x] and the centre [c]. *)
Definition count_step (c : Z) (r : runs) (x : Z) : runs :=
  let samplec := x - c in
  if samplec <? 0 then
    {| pulse_count := 0;
       space_count := space_count r + 1;
       pulse_count_storage :=
         if 0 <? pulse_count r then pulse_count_storage r ++ [pulse_count r]
         else pulse_count_storage r;
       space_count_storage := space_count_storage r |}
  else
    {| pulse_count := pulse_count r + 1;
       space_count := 0;
       pulse_count_storage := pulse_count_storage r;
       space_count_storage :=
         if 0 <? space_count r then space_count_storage r ++ [space_count r]
         else space_count_storage r |}.

Definition count_runs (c : Z) (samples : list Z) : runs :=
  foldl (count_step c) (mkRuns 0 0 [] []) samples.

(** [analyze_efergy_message]: the new wave centre is installed, and the
    frame is decoded from one of the two stores.  The statistics, the raw
    dump and the pulse listing (gated by the verbosity level) are not
    modelled. *)
Definition analyze_efergy_message (g : globals) : globals * report :=
  let samples := take (Z.to_nat (sample_store_index g)) (sample_storage g) in
  let g := mkGlobals (sample_storage g) (sample_store_index g)
             (double_to_long (difference samples)) in
  let r := count_runs (analysis_wavecenter g) samples in
  let rep :=
    if sample_storage g !!! 2%nat <? analysis_wavecenter g then
      let '(bytecount, bytearray) := decode_bytes_from_pulse_counts (pulse_count_storage r) in
      display_frame_data PositivePulses bytearray bytecount
    else
      let '(bytecount, bytearray) := decode_bytes_from_pulse_counts (space_count_storage r) in
      display_frame_data NegativePulses bytearray bytecount in
  (g, rep).

(** The preamble search of [run_in_analysis_mode]: the samples left when
    the loop ends, by [break] or at the end of the stream. *)
Fixpoint find_preamble (c prvsamp positive_preamble_count negative_preamble_count : Z)
    (stdin : list Z) : list Z :=
  match stdin with
  | [] => []
  | cursamp :: rest =>
      let found := (MIN_POSITIVE_PREAMBLE_SAMPLES <? positive_preamble_count)
                   && (MIN_NEGATIVE_PREAMBLE_SAMPLES <? negative_preamble_count) in
      if (c <=? prvsamp) && (c <=? cursamp) then
        find_preamble c cursamp (positive_preamble_count + 1) negative_preamble_count rest
      else if (prvsamp <? c) && (cursamp <? c) then
        find_preamble c cursamp positive_preamble_count (negative_preamble_count + 1) rest
      else if (c <=? prvsamp) && (cursamp <? c) then
        if found then rest
        else find_preamble c cursamp positive_preamble_count 0 rest
      else if (prvsamp <? c) && (c <=? cursamp) then
        if found then rest
        else find_preamble c cursamp 0 negative_preamble_count rest
      else find_preamble c cursamp positive_preamble_count negative_preamble_count rest
  end.

(** The same loop, observed by where it ends: [Some k] when the [break] is
    taken on the [k]-th sample read, [None] when the stream ends first. *)
Fixpoint preamble_break (c prvsamp positive_preamble_count negative_preamble_count : Z)
    (stdin : list Z) : option nat :=
  match stdin with
  | [] => None
  | cursamp :: rest =>
      let found := (MIN_POSITIVE_PREAMBLE_SAMPLES <? positive_preamble_count)
                   && (MIN_NEGATIVE_PREAMBLE_SAMPLES <? negative_preamble_count) in
      if (c <=? prvsamp) && (c <=? cursamp) then
        S <$> preamble_break c cursamp (positive_preamble_count + 1) negative_preamble_count rest
      else if (prvsamp <? c) && (cursamp <? c) then
        S <$> preamble_break c cursamp positive_preamble_count (negative_preamble_count + 1) rest
      else if (c <=? prvsamp) && (cursamp <? c) then
        if found then Some 1%nat
        else S <$> preamble_break c cursamp positive_preamble_count 0 rest
      else if (prvsamp <? c) && (c <=? cursamp) then
        if found then Some 1%nat
        else S <$> preamble_break c cursamp 0 negative_preamble_count rest
      else S <$> preamble_break c cursamp positive_preamble_count negative_preamble_count rest
  end.

(** The capture loop: every sample is stored at [sample_store_index];
    when the last slot has been written the buffer is analysed and the
    loop ends.  Returns the globals, the lines printed and the samples
    left on the stream. *)
Fixpoint capture_loop (g : globals) (stdin : list Z) : globals * list report * list Z :=
  match stdin with
  | [] => (g, [], [])
  | cursamp :: rest =>
      let g := mkGlobals (<[Z.to_nat (sample_store_index g) := cursamp]> (sample_storage g))
                 (sample_store_index g) (analysis_wavecenter g) in
      if sample_store_index g <? SAMPLE_STORE_SIZE - 1 then
        capture_loop (mkGlobals (sample_storage g) (sample_store_index g + 1)
                        (analysis_wavecenter g)) rest
      else
        let '(g, rep) := analyze_efergy_message g in
        (g, [rep], rest)
  end.

(** [sample_store_index=0;] and the capture loop. *)
Definition capture (g : globals) (stdin : list Z) : globals * list report * list Z :=
  capture_loop (mkGlobals (sample_storage g) 0 (analysis_wavecenter g)) stdin.

(** One iteration of the outermost loop. *)
Definition round (g : globals) (stdin : list Z) : globals * list report * list Z :=
  capture g (find_preamble (analysis_wavecenter g) 0 0 0 stdin).

(** The outermost loop.  Each iteration on a non-empty stream reads at
    least one sample, so [fuel] above the number of samples is never
    exhausted. *)
Fixpoint rounds (fuel : nat) (g : globals) (stdin : list Z) : list report :=
  match fuel, stdin with
  | O, _ | _, [] => []
  | S fuel, _ =>
      let '(g, reps, rest) := round g stdin in
      reps ++ rounds fuel g rest
  end.

(** The globals at program start (static storage is zeroed). *)
Definition start : globals :=
  {| sample_storage := replicate (Z.to_nat SAMPLE_STORE_SIZE) 0;
     sample_store_index := 0;
     analysis_wavecenter := 0 |}.

(** [run_in_analysis_mode] on a byte stream: the decoded-frame lines. *)
Definition run_in_analysis_mode (stdin : list Z) : list report :=
  let samples := samples_of_bytes stdin in
  rounds (length samples) start samples.

(** Reference definition of a run-length store, one polarity at a time:
    the lengths of the runs of samples satisfying [inside] that are closed
    by a sample outside; [cur] is the length of the run in progress. *)
Fixpoint closed_runs (inside : Z → bool) (cur : Z) (samples : list Z) : list Z :=
  match samples with
  | [] => []
  | x :: rest =>
      if inside x then closed_runs inside (cur + 1) rest
      else (if 0 <? cur then [cur] else []) ++ closed_runs inside 0 rest
  end.

(** A store of counts decoded and displayed under the message [m]. *)
Definition decoded (m : polarity) (store : list Z) : report :=
  let '(bytecount, bytearray) := decode_bytes_from_pulse_counts store in
  display_frame_data m bytearray bytecount.

(** The samples a capture of a long enough stream stores, and the ones it
    hands to the analysis. *)
Definition captured (stdin : list Z) : list Z := take (Z.to_nat SAMPLE_STORE_SIZE) stdin.
Definition analysed (stdin : list Z) : list Z := take (Z.to_nat (SAMPLE_STORE_SIZE - 1)) stdin.

End Analysis.

(** ** The specification's notions, in its own words *)

Module Spec.
Import C Primary.

(** "sum the first N-1 bytes modulo 256; compare to the last byte". *)
Definition byte_sum (bytes : list Z) : Z := foldr Z.add 0 (take 7 bytes).
Definition valid (bytes : list Z) : Prop := byte_sum bytes mod 256 = bytes !!! 7%nat.

(** The storage of a frame: [bytearray], nine 8-bit patterns. *)
Definition frame_bytes (bytes : list Z) : Prop :=
  length bytes = 9%nat ∧ Forall (λ b, 0 ≤ b < 256) bytes.

(** "bytes[4] and bytes[5] as a big-endian 16-bit unsigned ADC reading". *)
Definition adc_reading (bytes : list Z) : Z :=
  Z.lor (Z.shiftl (bytes !!! 4%nat) 8) (bytes !!! 5%nat).

(** "bytes[6] as a signed exponent". *)
Definition signed_exponent (bytes : list Z) : Z :=
  let b := bytes !!! 6%nat in
  if b <? 128 then b else b - 256.

(** "power = REFERENCE_VOLTAGE * adc_reading / (32768 / 2^exponent)". *)
Definition power (bytes : list Z) : float :=
  PrimFloat.div (PrimFloat.mul (Z2F VOLTAGE) (Z2F (adc_reading bytes)))
    (PrimFloat.div (Z2F 32768) (pow2 (signed_exponent bytes))).

(** "their arithmetic mean (integer-truncated)". *)
Definition total (samples : list Z) : Z := foldr Z.add 0 samples.
Definition mean (samples : list Z) : Z := Z.quot (total samples) CENTERSAMP.

(** "Bits are shifted into a byte accumulator MSB-first; after 8 bits the
    byte is appended to the frame buffer and the accumulator resets.
    After FRAME_BIT_COUNT total bits since frame start, all frame-assembly
    state unconditionally resets". *)
Definition push_bit (v : variant) (b : bool) (s : state) : state :=
  let s := set_dbit (dbit s + 1) s in
  let s := set_bitpos (bitpos s + 1) s in
  let s := set_bytedata ((2 * bytedata s + (if b then 1 else 0)) mod 256) s in
  let s := if 7 <? bitpos s then store_byte v s else s in
  if FRAMEBITCOUNT <? dbit s then reset_frame s else s.

(** The byte accumulator after some more bits, most significant first. *)
Definition shift_in (acc : Z) (bits : list bool) : Z :=
  foldl (λ acc (bit : bool), (2 * acc + (if bit then 1 else 0)) mod 256) acc bits.

(** A completed run of pulse width [width] took the assembly from [s] to
    [s']: "widths in (MINLOWBIT, MINHIGHBIT] are 0, widths > MINHIGHBIT
    are 1, widths <= MINLOWBIT are ... dropped (no bit emitted, no
    counters advanced)". *)
Definition classified (v : variant) (width : Z) (s s' : state) : Prop :=
  assembly s' =
  assembly (if width <=? MINLOWBIT then s else push_bit v (MINHIGHBIT <? width) s).

(** The outcome of a negative edge on the assembly: "if framing is active
    and the width exceeds MINLOWBIT, the run is classified into one bit". *)
Definition edge_classified (v : variant) (s s' : state) : Prop :=
  assembly s' =
  assembly (if (MINLOWBIT <? hctr s) && (frame s =? 1)
            then push_bit v (MINHIGHBIT <? hctr s) s else s).

(** All framing state at zero. *)
Definition framing_cleared (s : state) : Prop :=
  hctr s = 0 ∧ bytedata s = 0 ∧ bitpos s = 0 ∧ bytecount s = 0
  ∧ dbit s = 0 ∧ preamble s = 0 ∧ frame s = 0.

(** A decoding tick that classifies a bit. *)
Definition classifies (s : state) (cursamp : Z) : bool :=
  negb (0 <? dcenter s) && negative_edge s cursamp
  && (MINLOWBIT <? hctr s) && (frame s =? 1).

(** The facts that hold between iterations of the primary loop. *)
Record invariant (s : state) : Prop := {
  inv_bitpos : 0 ≤ bitpos s ≤ 7;
  inv_bytecount : 0 ≤ bytecount s ≤ E2BYTECOUNT;
  inv_dbit : dbit s = 8 * bytecount s + bitpos s;
  inv_tally : 0 ≤ dbit s ≤ FRAMEBITCOUNT;
  inv_bytedata : 0 ≤ bytedata s < 2 ^ bitpos s;
  inv_bytes : Forall (λ b, 0 ≤ b < 256) (bytearray s);
  inv_length : length (bytearray s) = 9%nat;
  inv_dcenter : 0 ≤ dcenter s ≤ CENTERSAMP;
  inv_hctr : 0 ≤ hctr s;
  inv_preamble : preamble s = 0 ∨ preamble s = 1 ∧ PREAMBLE_COUNT < hctr s;
  inv_frame : frame s = 0 ∨ frame s = 1
}.

End Spec.

(** * Properties *)

From Stdlib Require Import ZifyBool.
Import C Primary Spec.

(** ** Conversions between [char] types *)

Section Conversions.

Lemma uchar_range x : 0 ≤ uchar x < 256.
Proof. unfold uchar. apply Z.mod_pos_bound. lia. Qed.

Lemma uchar_small x : 0 ≤ x < 256 → uchar x = x.
Proof. intros. unfold uchar. apply Z.mod_small. lia. Qed.

Lemma schar_range x : -128 ≤ schar x < 128.
Proof. unfold schar. pose proof (Z.mod_pos_bound (x + 128) 256). lia. Qed.

Lemma uchar_schar x : uchar (schar x) = uchar x.
Proof.
  unfold uchar, schar.
  rewrite <- (Z.mod_add ((x + 128) mod 256 - 128) 1 256) by lia.
  replace ((x + 128) mod 256 - 128 + 1 * 256) with ((x + 128) mod 256 + 128) by lia.
  rewrite Z.add_mod_idemp_l by lia.
  replace (x + 128 + 128) with (x + 1 * 256) by lia.
  apply Z.mod_add. lia.
Qed.

Lemma uchar_uchar x : uchar (uchar x) = uchar x.
Proof. unfold uchar. apply Z.mod_mod. lia. Qed.

Lemma schar_uchar x : schar (uchar x) = schar x.
Proof. unfold schar, uchar. rewrite Z.add_mod_idemp_l by lia. reflexivity. Qed.

(** Every conversion keeps the 8-bit pattern. *)
Lemma uchar_elt v x : uchar (elt v x) = uchar x.
Proof.
  destruct v as [[|]|]; simpl; auto using uchar_schar, uchar_uchar.
Qed.

(** A converted value is determined by the pattern. *)
Lemma elt_uchar v x : elt v (uchar x) = elt v x.
Proof.
  destruct v as [[|]|]; simpl; auto using schar_uchar, uchar_uchar.
Qed.

(** Two values of the element type are equal exactly when their patterns
    are. *)
Lemma elt_eq_iff v a b : elt v a = elt v b ↔ uchar a = uchar b.
Proof.
  split; intros H.
  - rewrite <- (uchar_elt v a), <- (uchar_elt v b). now rewrite H.
  - rewrite <- (elt_uchar v a), <- (elt_uchar v b). now rewrite H.
Qed.

Lemma uchar_add a b : uchar (uchar a + uchar b) = uchar (a + b).
Proof. unfold uchar. symmetry. apply Z.add_mod. lia. Qed.

Lemma land_255 x : Z.land x 255 = uchar x.
Proof. change 255 with (Z.ones 8). rewrite Z.land_ones by lia. reflexivity. Qed.

(** Setting the low bit of an even byte. *)
Lemma lor_shift_bit x (b : bool) :
  (if b then Z.lor (uchar (Z.shiftl x 1)) 1 else uchar (Z.shiftl x 1))
  = (2 * x + (if b then 1 else 0)) mod 256.
Proof.
  unfold uchar. rewrite Z.shiftl_mul_pow2 by lia. change (2 ^ 1) with 2.
  replace (x * 2) with (2 * x) by lia.
  assert (Heven : (2 * x) mod 256 = 2 * (x mod 128)).
  { change 256 with (2 * 128). rewrite Z.mul_mod_distr_l by lia. reflexivity. }
  destruct b.
  - rewrite Heven.
    assert (Hland : Z.land (2 * (x mod 128)) 1 = 0).
    { apply Z.bits_inj'. intros n Hn. rewrite Z.land_spec, Z.bits_0.
      destruct (Z.eq_dec n 0) as [->|].
      - rewrite Z.testbit_even_0. reflexivity.
      - rewrite (Z.bits_above_log2 1 n); [apply andb_false_r|lia|].
        simpl. lia. }
    assert (Hlor : Z.lor (2 * (x mod 128)) 1 = 2 * (x mod 128) + 1).
    { rewrite <- (Z.lxor_lor _ _ Hland). symmetry. apply Z.add_nocarry_lxor, Hland. }
    rewrite Hlor.
    pose proof (Z.mod_pos_bound x 128).
    symmetry. rewrite <- (Z.mod_small (2 * (x mod 128) + 1) 256) by lia.
    rewrite <- Heven. rewrite Z.add_mod_idemp_l by lia. reflexivity.
  - rewrite Z.add_0_r. reflexivity.
Qed.

(** Two bytes, high one first, joined by shift-and-or. *)
Lemma big_endian_16 hi lo :
  0 ≤ lo < 256 → Z.lor (Z.shiftl hi 8) lo = hi * 256 + lo.
Proof.
  intros Hlo. rewrite Z.shiftl_mul_pow2 by lia. change (2 ^ 8) with 256.
  assert (Hland : Z.land (hi * 256) lo = 0).
  { apply Z.bits_inj'. intros n Hn. rewrite Z.land_spec, Z.bits_0.
    change 256 with (2 ^ 8). destruct (Z.ltb_spec n 8).
    - rewrite Z.mul_pow2_bits_low by lia. reflexivity.
    - rewrite (Z.bits_above_log2 lo n); [apply andb_false_r|lia|].
      destruct (Z.eq_dec lo 0) as [->|]; [simpl; lia|].
      apply Z.lt_le_trans with 8; [apply Z.log2_lt_pow2; lia|lia]. }
  rewrite <- (Z.lxor_lor _ _ Hland). symmetry. apply Z.add_nocarry_lxor, Hland.
Qed.

End Conversions.

(** ** The frame validator and the power converter *)

(** Destructs a frame storage into its nine bytes, with their ranges. *)
Ltac nine_bytes H :=
  let Hlen := fresh "Hlen" in
  let Hall := fresh "Hall" in
  destruct H as [Hlen Hall];
  repeat match goal with
    | l : list Z |- _ => destruct l; simpl in Hlen; try discriminate Hlen
    end;
  repeat match goal with
    | F : Forall _ (_ :: _) |- _ => apply Forall_cons in F; destruct F
    end.


Section Validator.
Variable v : variant.

(** The running [tbyte] has the pattern of the plain sum. *)
Lemma checksum_fold (bytes : list Z) (indices : list nat) acc :
  uchar (foldl (λ tbyte i, elt v (tbyte + elt v (bytes !!! i))) acc indices)
  = uchar (acc + foldr Z.add 0 (map (λ i, bytes !!! i) indices)).
Proof.
  revert acc. induction indices as [|i indices IH]; intros acc; simpl.
  - now rewrite Z.add_0_r.
  - rewrite IH.
    rewrite <- uchar_add, uchar_elt, <- (uchar_add acc), uchar_elt.
    rewrite (uchar_add acc), uchar_add. f_equal. lia.
Qed.

(** The test of [calculate_watts] is the specification's comparison. *)
Lemma checksum_test (bytes : list Z) :
  frame_bytes bytes →
  (checksum v bytes =? elt v (bytes !!! 7%nat)) = true ↔ valid bytes.
Proof.
  intros Hfb. rewrite Z.eqb_eq. unfold checksum, valid, byte_sum.
  rewrite land_255, elt_uchar, elt_eq_iff, checksum_fold.
  nine_bytes Hfb. simpl.
  match goal with |- _ = uchar ?b ↔ _ => rewrite (uchar_small b) by lia end.
  unfold uchar.
  match goal with |- ?a mod 256 = _ ↔ ?b mod 256 = _ => replace a with b by lia end.
  tauto.
Qed.

Lemma calculate_watts_valid (bytes : list Z) :
  frame_bytes bytes → valid bytes →
  calculate_watts v bytes = (1, [Reading (watts v bytes)]).
Proof.
  intros Hfb Hv. unfold calculate_watts.
  apply (checksum_test bytes Hfb) in Hv. now rewrite Hv.
Qed.

Lemma calculate_watts_invalid (bytes : list Z) :
  frame_bytes bytes → ¬ valid bytes →
  fst (calculate_watts v bytes) = 0 ∧ readings (snd (calculate_watts v bytes)) = [].
Proof.
  intros Hfb Hv. unfold calculate_watts.
  destruct (checksum v bytes =? elt v (bytes !!! 7%nat)) eqn:E.
  - apply (checksum_test bytes Hfb) in E. contradiction.
  - destruct v; simpl; auto.
Qed.

Lemma calculate_watts_result (bytes : list Z) :
  fst (calculate_watts v bytes) = 0 ∨ fst (calculate_watts v bytes) = 1.
Proof. unfold calculate_watts. destruct (_ =? _); simpl; auto. Qed.

End Validator.

(** In [EfergyRPI_log.c] the power printed for an accepted frame is the
    specification's formula: an unsigned big-endian reading and a signed
    exponent. *)
Lemma watts_log_is_power (bytes : list Z) :
  frame_bytes bytes → watts EfergyLog bytes = power bytes.
Proof.
  intros Hfb. unfold watts, power, adc_reading, signed_exponent, exponent, elt.
  nine_bytes Hfb. simpl.
  match goal with
  | |- context [pow2 (schar (uchar ?b6))] =>
      match goal with
      | |- context [uchar ?b4 * 256 + uchar ?b5] =>
          assert (0 ≤ b4 < 256 ∧ 0 ≤ b5 < 256 ∧ 0 ≤ b6 < 256) as Hrange by lia;
          revert Hrange; generalize b4 b5 b6
      end
  end.
  clear. intros b4 b5 b6 (Hb4 & Hb5 & Hb6).
  rewrite !uchar_small by assumption.
  f_equal; [f_equal; f_equal|f_equal; f_equal].
  - symmetry. now apply big_endian_16.
  - unfold schar. destruct (Z.ltb_spec b6 128).
    + rewrite Z.mod_small by lia. lia.
    + rewrite <- (Z.mod_add _ (-1) 256) by lia. rewrite Z.mod_small by lia. lia.
Qed.

(** ** Tactics for the state machine *)

Ltac simp_state :=
  cbn [prvsamp hctr bitpos bytecount preamble frame dcenter dbit center bytedata
       bytearray out set_prvsamp set_hctr set_bitpos set_bytecount set_preamble
       set_frame set_dcenter set_dbit set_center set_bytedata set_bytearray set_out] in *.

Ltac consts :=
  unfold FRAMEBITCOUNT, E2BYTECOUNT, CENTERSAMP, PREAMBLE_COUNT, MINLOWBIT, MINHIGHBIT in *.

Ltac split_ifs :=
  repeat match goal with
    | |- context [if ?b then _ else _] => destruct b eqn:?
    end.

(** ** The loop invariant *)

(** The shift-and-or of [classify_bit] is the arithmetic [2 * acc + bit]. *)
Lemma classify_push v s :
  classify_bit v s = push_bit v (MINHIGHBIT <? hctr s) s.
Proof.
  unfold classify_bit, push_bit. simp_state.
  destruct (MINHIGHBIT <? hctr s) eqn:E; simp_state.
  - rewrite (lor_shift_bit (bytedata s) true). reflexivity.
  - rewrite (lor_shift_bit (bytedata s) false). reflexivity.
Qed.

Lemma pow2_bitpos bp : 0 ≤ bp ≤ 7 → 2 ^ (bp + 1) = 2 * 2 ^ bp ∧ 1 ≤ 2 ^ bp ≤ 128.
Proof.
  intros H. split.
  - rewrite Z.pow_add_r by lia. lia.
  - split.
    + apply (Z.pow_le_mono_r 2 0 bp); lia.
    + apply (Z.pow_le_mono_r 2 bp 7); lia.
Qed.

Lemma invariant_init : invariant init.
Proof.
  constructor; simpl; consts; try lia; auto.
  repeat (apply Forall_cons; split; [lia|]). apply Forall_nil_2.
Qed.

Lemma invariant_push_bit v b s : invariant s → invariant (push_bit v b s).
Proof.
  intros [].
  pose proof (pow2_bitpos _ inv_bitpos0) as [Hp1 Hp2].
  assert (Hsmall : (2 * bytedata s + (if b then 1 else 0)) mod 256
                   = 2 * bytedata s + (if b then 1 else 0)).
  { apply Z.mod_small. destruct b; lia. }
  unfold push_bit, store_byte, reset_frame. simp_state. rewrite Hsmall.
  pose proof (calculate_watts_result v
    (<[Z.to_nat (bytecount s):=2 * bytedata s + (if b then 1 else 0)]> (bytearray s))) as Hr.
  destruct (calculate_watts v _) as [ok lines]. simpl in Hr.
  consts.
  split_ifs; simp_state; constructor; simp_state; consts;
    rewrite ?length_insert; try (destruct b; lia); auto.
  all: try (apply Forall_insert; [assumption|destruct b; lia]).
Qed.

(** One iteration of the loop keeps the invariant. *)
Lemma invariant_tick v s x : invariant s → invariant (tick v s x).
Proof.
  intros Hinv. unfold tick.
  destruct (0 <? dcenter s) eqn:Hd.
  - destruct Hinv. unfold calibrate, reinit_frame. simp_state. consts.
    split_ifs; constructor; simp_state; consts; try lia; auto.
  - unfold cases, handoff.
    destruct (positive_edge s x) eqn:Hpe; [|destruct (continuing_high s x) eqn:Hch;
      [|destruct (negative_edge s x) eqn:Hne]].
    + destruct Hinv. simp_state. split_ifs; constructor; simp_state; consts; try lia; auto.
    + destruct Hinv. simp_state. consts.
      split_ifs; constructor; simp_state; consts; try lia; auto.
    + rewrite classify_push.
      assert (Hinv' : invariant (if (MINLOWBIT <? hctr s) && (frame s =? 1)
                                 then push_bit v (MINHIGHBIT <? hctr s) s else s)).
      { destruct (_ && _); auto using invariant_push_bit. }
      destruct Hinv'. simp_state.
      split_ifs; constructor; simp_state; consts; try lia; auto.
    + destruct Hinv. simp_state. split_ifs; constructor; simp_state; consts; try lia; auto.
Qed.

Lemma invariant_run v s samples : invariant s → invariant (run v s samples).
Proof.
  revert s. induction samples as [|x samples IH]; intros s Hinv; simpl; auto.
  apply IH, invariant_tick, Hinv.
Qed.

Lemma invariant_reachable v history : invariant (run v init history).
Proof. apply invariant_run, invariant_init. Qed.

(** ** Calibration *)

Lemma run_snoc v s samples x : run v s (samples ++ [x]) = tick v (run v s samples) x.
Proof. unfold run. rewrite foldl_snoc. reflexivity. Qed.

Lemma run_app v s l1 l2 : run v s (l1 ++ l2) = run v (run v s l1) l2.
Proof. unfold run. apply foldl_app. Qed.

Lemma total_snoc samples x : total (samples ++ [x]) = total samples + x.
Proof. unfold total. induction samples; simpl; lia. Qed.

(** While fewer samples than [dcenter] have been read, the loop only
    accumulates: nothing is decoded and nothing is printed. *)
Lemma calibrating_prefix v samples : ∀ s,
  Z.of_nat (length samples) < dcenter s →
  let s' := run v s samples in
  dcenter s' = dcenter s - Z.of_nat (length samples)
  ∧ center s' = center s + total samples
  ∧ out s' = out s ∧ bytearray s' = bytearray s.
Proof.
  induction samples as [|x samples IH]; intros s Hlen; simpl in *.
  - repeat split; lia.
  - specialize (IH (tick v s x)).
    assert (Ht : tick v s x = set_prvsamp x (set_center (center s + x)
                                 (set_dcenter (dcenter s - 1) s))).
    { unfold tick, calibrate. simp_state.
      destruct (0 <? dcenter s) eqn:?; [|lia].
      destruct (dcenter s - 1 =? 0) eqn:?; [lia|reflexivity]. }
    rewrite Ht in IH |- *. simp_state.
    destruct IH as (-> & -> & -> & ->); [lia|].
    unfold total. simpl. repeat split; lia.
Qed.

(** The sample that brings [dcenter] to zero installs the quotient of the
    accumulator and clears the framing state. *)
Lemma calibration_completes v s samples :
  0 < dcenter s → Z.of_nat (length samples) = dcenter s →
  let s' := run v s samples in
  dcenter s' = 0
  ∧ center s' = Z.quot (center s + total samples) CENTERSAMP
  ∧ framing_cleared s' ∧ out s' = out s ∧ bytearray s' = bytearray s.
Proof.
  intros Hpos Hlen.
  destruct samples as [|x0 samples0] using rev_ind; [simpl in Hlen; lia|].
  clear IHsamples0. rewrite length_app in Hlen. simpl in Hlen.
  rewrite run_snoc, total_snoc.
  destruct (calibrating_prefix v samples0 s) as (Hd & Hc & Ho & Hb); [lia|].
  set (t := run v s samples0) in *.
  unfold tick, calibrate, reinit_frame, framing_cleared. simp_state.
  destruct (0 <? dcenter t) eqn:?; [|lia].
  destruct (dcenter t - 1 =? 0) eqn:?; [|lia].
  simp_state. rewrite Hc, Ho, Hb. repeat split; try lia. f_equal. lia.
Qed.

(** ** Frame completion *)

Lemma closing_byte_range s : 0 ≤ closing_byte s < 256.
Proof.
  unfold closing_byte.
  rewrite (lor_shift_bit (bytedata s) (MINHIGHBIT <? hctr s)).
  apply Z.mod_pos_bound. lia.
Qed.

Lemma completed_frame_bytes s : invariant s → frame_bytes (completed_frame s).
Proof.
  intros []. unfold frame_bytes, completed_frame. rewrite length_insert. split; [assumption|].
  apply Forall_insert; [assumption|apply closing_byte_range].
Qed.

(** What the completing tick does: the frame is stored, validated, and the
    calibration is armed when the validation fails. *)
Lemma tick_completes v s cursamp :
  invariant s → completes_frame s cursamp = true →
  let s' := tick v s cursamp in
  bytearray s' = completed_frame s
  ∧ out s' = out s ++ snd (calculate_watts v (completed_frame s))
  ∧ dcenter s' = (if fst (calculate_watts v (completed_frame s)) =? 0 then CENTERSAMP else 0).
Proof.
  intros Hinv Hc. unfold completes_frame in Hc.
  destruct Hinv. consts.
  unfold tick, cases, handoff, classify_bit, store_byte, reset_frame,
    positive_edge, continuing_high, negative_edge, completed_frame, closing_byte in *.
  simp_state. consts.
  destruct (calculate_watts v _) as [ok lines] eqn:Hcw.
  destruct (0 <? dcenter s) eqn:?; [lia|].
  destruct ((center s <? cursamp) && (prvsamp s <? center s)) eqn:?; [lia|].
  destruct ((center s <? cursamp) && (center s <? prvsamp s)) eqn:?; [lia|].
  destruct ((cursamp <? center s) && (center s <? prvsamp s)) eqn:?; [|lia].
  destruct ((3 <? hctr s) && (frame s =? 1)) eqn:?; [|lia].
  simp_state.
  destruct (8 <? hctr s) eqn:?; simp_state.
  all: destruct (7 <? bitpos s + 1) eqn:?; [|lia]; simp_state.
  all: destruct (bytecount s + 1 =? 8) eqn:?; [|lia]; simp_state.
  all: rewrite Hcw in *; cbn [fst snd] in *; simp_state.
  all: destruct (ok =? 0) eqn:?; simp_state.
  all: destruct (8 * 8 <? dbit s + 1) eqn:?; [lia|]; simp_state.
  all: split_ifs; simp_state; simpl; repeat split; try reflexivity; lia.
Qed.

(** Output appears only on a completing tick. *)
Lemma output_only_on_completion v s cursamp :
  completes_frame s cursamp = false → out (tick v s cursamp) = out s.
Proof.
  intros Hc. unfold completes_frame in Hc.
  unfold tick, calibrate, reinit_frame, cases, handoff, classify_bit, store_byte,
    reset_frame, positive_edge, continuing_high, negative_edge in *.
  simp_state. consts.
  destruct (calculate_watts v _) as [ok lines].
  split_ifs; simp_state; try reflexivity; lia.
Qed.

Lemma valid_dec (bytes : list Z) : valid bytes ∨ ¬ valid bytes.
Proof. unfold valid. lia. Qed.

(** Only the calibration branch writes the centre. *)
Lemma decoding_tick_keeps_center v s x :
  (0 <? dcenter s) = false → center (tick v s x) = center s.
Proof.
  intros Hd. unfold tick, cases, handoff, classify_bit, store_byte, reset_frame.
  rewrite Hd. simp_state.
  destruct (calculate_watts v _) as [ok lines].
  split_ifs; reflexivity.
Qed.

(** C1: a completed frame is valid exactly when the sum of its first seven
    bytes modulo 256 equals the eighth; a valid frame prints exactly one
    power line; an invalid frame prints no power line and arms the
    calibration, which consumes the next [CENTERSAMP] samples, with no
    decoding and no output, before the decoder runs again with the framing
    state cleared.  That calibration is not a fresh one: the accumulator
    still holds the centre in use, so the centre installed is the truncated
    quotient of (that centre + the sum of the samples) by [CENTERSAMP], not
    the mean of the samples. *)
Theorem checksum_gates_output v history cursamp :
  completes_frame (run v init history) cursamp = true →
  let s := run v init history in
  let s' := tick v s cursamp in
  let fr := completed_frame s in
  bytearray s' = fr
  ∧ center s' = center s
  ∧ (fst (calculate_watts v fr) = 1 ↔ valid fr)
  ∧ (valid fr → out s' = out s ++ [Reading (watts v fr)] ∧ dcenter s' = 0)
  ∧ (¬ valid fr →
     readings (out s') = readings (out s) ∧ dcenter s' = CENTERSAMP
     ∧ ∀ next, Z.of_nat (length next) = CENTERSAMP →
         (∀ k, (k < length next)%nat →
            0 < dcenter (run v s' (take k next)) ∧ out (run v s' (take k next)) = out s')
         ∧ dcenter (run v s' next) = 0 ∧ out (run v s' next) = out s'
         ∧ framing_cleared (run v s' next)
         ∧ center (run v s' next) = Z.quot (center s + total next) CENTERSAMP).
Proof.
  intros Hc s s' fr.
  pose proof (invariant_reachable v history) as Hinv. fold s in Hinv, Hc.
  pose proof (completed_frame_bytes s Hinv) as Hfb. fold fr in Hfb.
  destruct (tick_completes v s cursamp Hinv Hc) as (Hb & Ho & Hd).
  fold s' fr in Hb, Ho, Hd.
  assert (Hcen : center s' = center s).
  { apply decoding_tick_keeps_center. unfold completes_frame in Hc. lia. }
  split; [exact Hb|]. split; [exact Hcen|]. split; [|split].
  - split.
    + intros H1. destruct (valid_dec fr) as [Hv|Hv]; [exact Hv|].
      destruct (calculate_watts_invalid v fr Hfb Hv) as [H0 _]. congruence.
    + intros Hv. now rewrite (calculate_watts_valid v fr Hfb Hv).
  - intros Hv. rewrite (calculate_watts_valid v fr Hfb Hv) in Ho, Hd. auto.
  - intros Hv. destruct (calculate_watts_invalid v fr Hfb Hv) as [H0 Hr].
    rewrite H0 in Hd. change (dcenter s' = CENTERSAMP) in Hd.
    assert (Hread : readings (out s') = readings (out s)).
    { rewrite Ho. unfold readings in *. rewrite omap_app, Hr. apply app_nil_r. }
    split; [exact Hread|]. split; [exact Hd|].
    intros next Hlen. split; [|].
    + intros k Hk.
      destruct (calibrating_prefix v (take k next) s') as (Hd' & _ & Ho' & _).
      { rewrite length_take. unfold CENTERSAMP in *. lia. }
      rewrite length_take in Hd'. unfold CENTERSAMP in *. split; [lia|exact Ho'].
    + destruct (calibration_completes v s' next) as (? & Hq & ? & ? & _);
        unfold CENTERSAMP in *; try lia. rewrite Hcen in Hq. auto.
Qed.

Lemma checksum_gates_output_witness :
  completes_frame (run EfergyLog init Demo.good_history) (-1000) = true
  ∧ out (tick EfergyLog (run EfergyLog init Demo.good_history) (-1000))
    = [Reading (power Demo.good_frame)]
  ∧ completes_frame (run EfergyLog init Demo.stale_history) 0 = true
  ∧ dcenter (tick EfergyLog (run EfergyLog init Demo.stale_history) 0) = CENTERSAMP
  ∧ center (run EfergyLog (tick EfergyLog (run EfergyLog init Demo.stale_history) 0)
              (replicate 100 0)) = 10
  ∧ mean (replicate 100 0) = 0.
Proof.
  assert (Hgood : completes_frame (run EfergyLog init Demo.good_history) (-1000) = true)
    by (vm_compute; reflexivity).
  assert (Hbad : completes_frame (run EfergyLog init Demo.stale_history) 0 = true)
    by (vm_compute; reflexivity).
  split; [exact Hgood|]. split; [|split; [exact Hbad|]].
  - pose proof (checksum_gates_output EfergyLog Demo.good_history (-1000) Hgood) as H.
    cbv zeta in H. destruct H as (_ & _ & _ & Hvalid & _).
    destruct Hvalid as [Hout _]; [vm_compute; reflexivity|].
    etransitivity; [exact Hout|]. vm_compute. reflexivity.
  - pose proof (checksum_gates_output EfergyLog Demo.stale_history 0 Hbad) as H.
    cbv zeta in H. destruct H as (_ & _ & _ & _ & Hinvalid).
    destruct Hinvalid as (_ & Hd & Hnext); [vm_compute; discriminate|].
    split; [exact Hd|].
    destruct (Hnext (replicate 100 0)) as (_ & _ & _ & _ & Hq); [reflexivity|].
    split; [|vm_compute; reflexivity].
    etransitivity; [exact Hq|]. vm_compute. reflexivity.
Defined.

(** ** High runs and edges *)

(** A sample above the centre never touches the frame assembly; it starts
    or extends the pulse count. *)
Lemma tick_high v s x :
  dcenter s = 0 → center s < x →
  let s' := tick v s x in
  assembly s' = assembly s ∧ center s' = center s ∧ prvsamp s' = x
  ∧ (frame s = 1 → frame s' = 1)
  ∧ hctr s' = (if center s <? prvsamp s then hctr s + 1 else 0).
Proof.
  intros Hd Hx. unfold tick, cases, handoff, positive_edge, continuing_high,
    negative_edge, assembly.
  simp_state. consts.
  split_ifs; simp_state; repeat split; try reflexivity; lia.
Qed.

(** Samples above the centre, read while the previous sample is above it
    too: the pulse counter grows by their number. *)
Lemma run_highs_continuing v highs : ∀ s,
  dcenter s = 0 → center s < prvsamp s → Forall (λ x, center s < x) highs →
  let s' := run v s highs in
  assembly s' = assembly s ∧ center s' = center s ∧ center s < prvsamp s'
  ∧ (frame s = 1 → frame s' = 1)
  ∧ hctr s' = hctr s + Z.of_nat (length highs).
Proof.
  induction highs as [|x highs IH]; intros s Hd Hp Hall.
  - simpl. repeat split; auto; lia.
  - apply Forall_cons in Hall as [Hx Hall].
    destruct (tick_high v s x Hd Hx) as (Ha & Hc & Hpx & Hf & Hh).
    assert (Hd1 : dcenter (tick v s x) = 0).
    { unfold assembly in Ha. congruence. }
    specialize (IH (tick v s x) Hd1). rewrite Hc, Hpx in IH.
    destruct (IH Hx Hall) as (Ha' & Hc' & Hp' & Hf' & Hh').
    change (run v s (x :: highs)) with (run v (tick v s x) highs). cbv zeta.
    rewrite Ha', Hc', Hh', Hh, Ha.
    destruct (center s <? prvsamp s) eqn:E; [|lia].
    repeat split; auto. rewrite length_cons. lia.
Qed.

(** A complete high run: the first sample above the centre resets the
    pulse counter and is not counted. *)
Lemma run_highs_from_low v highs s :
  dcenter s = 0 → prvsamp s ≤ center s → highs ≠ [] →
  Forall (λ x, center s < x) highs →
  let s' := run v s highs in
  assembly s' = assembly s ∧ center s' = center s ∧ center s < prvsamp s'
  ∧ (frame s = 1 → frame s' = 1)
  ∧ hctr s' = Z.of_nat (length highs) - 1.
Proof.
  intros Hd Hp Hne Hall. destruct highs as [|x highs]; [congruence|].
  apply Forall_cons in Hall as [Hx Hall].
  destruct (tick_high v s x Hd Hx) as (Ha & Hc & Hpx & Hf & Hh).
  assert (Hd1 : dcenter (tick v s x) = 0).
  { unfold assembly in Ha. congruence. }
  destruct (run_highs_continuing v highs (tick v s x) Hd1) as (Ha' & Hc' & Hp' & Hf' & Hh').
  { rewrite Hc, Hpx. exact Hx. }
  { rewrite Hc. exact Hall. }
  change (run v s (x :: highs)) with (run v (tick v s x) highs). cbv zeta.
  rewrite Ha', Hc', Hh', Hh, Ha.
  destruct (center s <? prvsamp s) eqn:E; [lia|].
  rewrite Hc in Hp'. repeat split; auto. rewrite length_cons. lia.
Qed.

(** Any samples above the centre leave the assembly alone. *)
Lemma run_highs_assembly v highs : ∀ s,
  dcenter s = 0 → Forall (λ x, center s < x) highs →
  assembly (run v s highs) = assembly s ∧ center (run v s highs) = center s.
Proof.
  induction highs as [|x highs IH]; intros s Hd Hall; [auto|].
  apply Forall_cons in Hall as [Hx Hall].
  destruct (tick_high v s x Hd Hx) as (Ha & Hc & _).
  assert (Hd1 : dcenter (tick v s x) = 0).
  { unfold assembly in Ha. congruence. }
  destruct (IH (tick v s x) Hd1) as [Ha' Hc']; [now rewrite Hc|].
  change (run v s (x :: highs)) with (run v (tick v s x) highs).
  rewrite Ha', Hc'. auto.
Qed.

(** The assembly after a pushed bit depends on the assembly only. *)
Lemma push_bit_assembly v b s1 s2 :
  assembly s1 = assembly s2 → assembly (push_bit v b s1) = assembly (push_bit v b s2).
Proof.
  unfold assembly. intros H. injection H as Hdb Hbp Hbc Hbd Hba Ho Hdc.
  unfold push_bit, store_byte, reset_frame. simp_state.
  rewrite Hdb, Hbp, Hbc, Hbd, Hba.
  destruct (calculate_watts v _) as [ok lines].
  split_ifs; simp_state; congruence.
Qed.

(** A decoding tick at a negative edge. *)
Lemma tick_negative_edge v s x :
  dcenter s = 0 → center s < prvsamp s → x < center s →
  edge_classified v s (tick v s x) ∧ hctr (tick v s x) = 0.
Proof.
  intros Hd Hp Hx. unfold edge_classified. rewrite <- classify_push.
  unfold tick, cases, handoff, positive_edge, continuing_high, negative_edge.
  destruct ((MINLOWBIT <? hctr s) && (frame s =? 1)) eqn:Hq.
  - set (t := classify_bit v s).
    simp_state. split_ifs; simp_state; try lia; auto.
  - simp_state. split_ifs; simp_state; try lia; auto.
Qed.

(** A decoding tick on which the current or the previous sample equals the
    centre. *)
Lemma tick_on_center v s x :
  dcenter s = 0 → x = center s ∨ prvsamp s = center s →
  hctr (tick v s x) = 0 ∧ assembly (tick v s x) = assembly s.
Proof.
  intros Hd Hx. unfold tick, cases, handoff, positive_edge, continuing_high,
    negative_edge, assembly.
  simp_state. split_ifs; simp_state; try lia; auto.
Qed.

(** C4: the primary loop compares the thresholds with the pulse counter,
    which is one less than the number of samples of the run, since the first
    sample above the centre resets the counter and is not counted.  With
    framing active, a completed high run of n samples is classified as a
    run of width n - 1: it emits no bit and advances no counter when
    n - 1 <= MINLOWBIT, emits logic 0 when MINLOWBIT < n - 1 <= MINHIGHBIT,
    and emits logic 1 when n - 1 > MINHIGHBIT.  Runs of MINLOWBIT + 1 and of
    MINHIGHBIT + 1 samples are therefore read one class too low. *)
Theorem high_run_classified_by_counter v s highs low :
  dcenter s = 0 → frame s = 1 → prvsamp s ≤ center s →
  highs ≠ [] → Forall (λ x, center s < x) highs → low < center s →
  classified v (Z.of_nat (length highs) - 1) s (run v s (highs ++ [low]))
  ∧ hctr (run v s (highs ++ [low])) = 0.
Proof.
  intros Hd Hf Hp Hne Hall Hlow.
  destruct (run_highs_from_low v highs s Hd Hp Hne Hall) as (Ha & Hc & Hp' & Hf' & Hh).
  rewrite run_snoc. set (t := run v s highs) in *.
  assert (Hdt : dcenter t = 0) by (unfold assembly in Ha; congruence).
  destruct (tick_negative_edge v t low) as [He H0]; [exact Hdt|lia|lia|].
  split; [|exact H0].
  unfold classified. unfold edge_classified in He. rewrite He, Hh, (Hf' Hf).
  change (1 =? 1) with true. rewrite andb_true_r. consts.
  destruct (Z.of_nat (length highs) - 1 <=? 3) eqn:E1;
    destruct (3 <? Z.of_nat (length highs) - 1) eqn:E2; try lia.
  - exact Ha.
  - apply push_bit_assembly, Ha.
Qed.

Lemma high_run_classified_by_counter_witness :
  classified EfergyLog (Z.of_nat (length (replicate 5 1000)) - 1) (Demo.framing EfergyLog)
    (run EfergyLog (Demo.framing EfergyLog) (replicate 5 1000 ++ [-1000]))
  ∧ hctr (run EfergyLog (Demo.framing EfergyLog) (replicate 5 1000 ++ [-1000])) = 0.
Proof.
  apply (high_run_classified_by_counter EfergyLog (Demo.framing EfergyLog)
           (replicate 5 1000) (-1000)).
  - vm_compute; reflexivity.
  - vm_compute; reflexivity.
  - vm_compute; discriminate.
  - discriminate.
  - repeat (apply Forall_cons; split; [vm_compute; reflexivity|]). apply Forall_nil_2.
  - vm_compute; reflexivity.
Defined.

(** C4 as stated fails: with framing active, a high run of exactly four
    samples (a width in (MINLOWBIT, MINHIGHBIT]) emits no bit. *)
Lemma four_sample_run_emits_no_bit :
  dcenter (Demo.framing EfergyLog) = 0 ∧ frame (Demo.framing EfergyLog) = 1
  ∧ ¬ classified EfergyLog (Z.of_nat (length (replicate 4 1000))) (Demo.framing EfergyLog)
        (run EfergyLog (Demo.framing EfergyLog) (replicate 4 1000 ++ [-1000])).
Proof.
  split; [vm_compute; reflexivity|]. split; [vm_compute; reflexivity|].
  vm_compute. discriminate.
Qed.




(** C10: on a decoding tick where the current or the previous sample
    equals the wave centre, none of the positive-edge, continuing-high and
    negative-edge cases applies, the pulse counter is reset to 0 and no bit
    is classified; so a high run closed by a sample equal to the centre is
    discarded without a bit. *)
Theorem center_sample_is_never_high v s :
  dcenter s = 0 →
  (∀ cursamp, cursamp = center s ∨ prvsamp s = center s →
     positive_edge s cursamp = false ∧ continuing_high s cursamp = false
     ∧ negative_edge s cursamp = false
     ∧ hctr (tick v s cursamp) = 0 ∧ assembly (tick v s cursamp) = assembly s)
  ∧ (∀ highs, Forall (λ x, center s < x) highs →
     hctr (run v s (highs ++ [center s])) = 0
     ∧ assembly (run v s (highs ++ [center s])) = assembly s).
Proof.
  intros Hd. split.
  - intros x Hx. destruct (tick_on_center v s x Hd Hx) as [Hh Ha].
    unfold positive_edge, continuing_high, negative_edge.
    repeat split; auto; lia.
  - intros highs Hall. destruct (run_highs_assembly v highs s Hd Hall) as [Ha Hc].
    rewrite run_snoc. set (t := run v s highs) in *.
    assert (Hdt : dcenter t = 0) by (unfold assembly in Ha; congruence).
    destruct (tick_on_center v t (center s) Hdt) as [Hh Ha']; [left; auto|].
    split; [exact Hh|]. now rewrite Ha'.
Qed.

Lemma center_sample_is_never_high_witness :
  hctr (tick EfergyLog (Demo.mid_run EfergyLog) 0) = 0
  ∧ assembly (tick EfergyLog (Demo.mid_run EfergyLog) 0) = assembly (Demo.mid_run EfergyLog).
Proof.
  assert (Hd : dcenter (Demo.mid_run EfergyLog) = 0) by (vm_compute; reflexivity).
  pose proof (center_sample_is_never_high EfergyLog (Demo.mid_run EfergyLog) Hd) as [Htick _].
  destruct (Htick 0) as (_ & _ & _ & Hh & Ha); [left; vm_compute; reflexivity|].
  split; [exact Hh|exact Ha].
Defined.

(** ** Frame counters and the preamble *)

(** A classified bit can only lower the two flags. *)
Lemma classify_bit_flags v s :
  (preamble (classify_bit v s) = preamble s ∨ preamble (classify_bit v s) = 0)
  ∧ (frame (classify_bit v s) = frame s ∨ frame (classify_bit v s) = 0).
Proof.
  unfold classify_bit, store_byte, reset_frame. simp_state.
  destruct (calculate_watts v _) as [ok lines].
  split_ifs; simp_state; auto.
Qed.

(** C6 (amended): between iterations of the primary loop, bitpos is in
    0..7, bytecount is in 0..E2BYTECOUNT and the bit tally is
    8 * bytecount + bitpos <= FRAMEBITCOUNT; bytecount equals E2BYTECOUNT
    exactly while a complete frame has been handed over and no further bit
    has arrived.  A bit that would take the tally above FRAMEBITCOUNT resets
    bitpos, bytecount, dbit, the byte accumulator and the preamble and frame
    flags to zero, stores no byte and prints nothing. *)
Theorem frame_counters_bounded v history :
  let s := run v init history in
  0 ≤ bitpos s ≤ 7 ∧ 0 ≤ bytecount s ≤ E2BYTECOUNT
  ∧ dbit s = 8 * bytecount s + bitpos s ∧ 0 ≤ dbit s ≤ FRAMEBITCOUNT
  ∧ (bytecount s = E2BYTECOUNT ↔ dbit s = FRAMEBITCOUNT)
  ∧ ∀ cursamp, classifies s cursamp = true → FRAMEBITCOUNT < dbit s + 1 →
      let s' := tick v s cursamp in
      bitpos s' = 0 ∧ bytecount s' = 0 ∧ dbit s' = 0 ∧ bytedata s' = 0
      ∧ preamble s' = 0 ∧ frame s' = 0
      ∧ bytearray s' = bytearray s ∧ out s' = out s.
Proof.
  intros s. pose proof (invariant_reachable v history) as Hinv. fold s in Hinv.
  clearbody s. destruct Hinv. consts.
  do 4 (split; [lia|]). split; [split; lia|].
  intros cursamp Hc Hover. unfold classifies in Hc.
  unfold tick, cases, handoff, classify_bit, store_byte, reset_frame,
    positive_edge, continuing_high, negative_edge in *.
  simp_state. consts.
  destruct (calculate_watts v _) as [ok lines].
  split_ifs; simp_state; repeat split; try reflexivity; lia.
Qed.

(** Against C6 as stated: after a frame with a matching checksum the byte
    count is E2BYTECOUNT, outside 0..E2BYTECOUNT-1. *)
Lemma bytecount_reaches_frame_size :
  ¬ (0 ≤ bytecount (run EfergyLog init (Demo.transmission 0 Demo.good_frame))
       ≤ E2BYTECOUNT - 1).
Proof. vm_compute. intros [_ H]. apply H. reflexivity. Qed.

(** C7: the preamble flag is set only while the pulse counter exceeds
    PREAMBLE_COUNT; it is raised only by a continuing-high tick; a
    continuing-high tick never starts framing; the frame flag becomes 1
    exactly on a decoding tick where, after the case evaluation, the pulse
    counter is 0 and the preamble flag is set, and that tick clears the
    preamble flag. *)
Theorem preamble_handoff v history cursamp :
  let s := run v init history in
  let s' := tick v s cursamp in
  (preamble s = 1 → PREAMBLE_COUNT < hctr s)
  ∧ (preamble s ≠ 1 → preamble s' = 1 →
       dcenter s = 0 ∧ continuing_high s cursamp = true ∧ PREAMBLE_COUNT < hctr s')
  ∧ (dcenter s = 0 → continuing_high s cursamp = true → frame s ≠ 1 → frame s' ≠ 1)
  ∧ (frame s ≠ 1 → frame s' = 1 →
       dcenter s = 0 ∧ hctr (cases v s cursamp) = 0 ∧ preamble (cases v s cursamp) = 1
       ∧ preamble s' = 0)
  ∧ (dcenter s = 0 → hctr (cases v s cursamp) = 0 → preamble (cases v s cursamp) = 1 →
       frame s' = 1 ∧ preamble s' = 0).
Proof.
  intros s s'. subst s'.
  pose proof (invariant_reachable v history) as Hinv. fold s in Hinv.
  clearbody s. destruct Hinv. consts.
  split; [lia|].
  unfold tick, handoff.
  destruct (0 <? dcenter s) eqn:Hd.
  - unfold calibrate, reinit_frame. simp_state.
    split_ifs; simp_state; repeat split; intros; try lia.
  - set (t := cases v s cursamp).
    assert (Ht : (preamble s ≠ 1 → preamble t = 1 →
                    continuing_high s cursamp = true ∧ 40 < hctr t)
                 ∧ (continuing_high s cursamp = true → frame t = frame s ∧ 0 < hctr t)
                 ∧ (frame s ≠ 1 → frame t ≠ 1)).
    { subst t. unfold cases.
      destruct (positive_edge s cursamp) eqn:Hpe;
        [|destruct (continuing_high s cursamp) eqn:Hch;
          [|destruct (negative_edge s cursamp) eqn:Hne]].
      - unfold positive_edge, continuing_high in *. simp_state.
        repeat split; intros; simp_state; lia.
      - simp_state. consts. split_ifs; simp_state; repeat split; intros; simp_state; lia.
      - destruct ((MINLOWBIT <? hctr s) && (frame s =? 1)) eqn:Hq.
        + destruct (classify_bit_flags v s) as [Hcp Hcf].
          simp_state. repeat split; intros; try discriminate; lia.
        + simp_state. repeat split; intros; try discriminate; lia.
      - simp_state. repeat split; intros; try discriminate; lia. }
    destruct Ht as (Ht1 & Ht2 & Ht3).
    destruct ((hctr t =? 0) && (preamble t =? 1)) eqn:Hh; simp_state.
    + repeat split; intros; try lia.
      all: try (destruct (Ht2 ltac:(assumption)); lia).
    + repeat split; intros; try lia.
      all: try (destruct (Ht1 ltac:(assumption) ltac:(assumption)); assumption).
      all: try (destruct (Ht2 ltac:(assumption)); lia).
Qed.

(** ** The defects *)

(** C2: for the frame 00 00 00 00 80 00 ff 7f, whose checksum matches, the
    specification's power is 120 (reading 32768, exponent -1), and
    [EfergyRPI_log.c] prints it; [EfergyRPI_001.c] prints -120 where plain
    [char] is signed (the reading is taken as -32768) and 240 * 2^255 where
    it is unsigned (the exponent is taken as 255). *)
Theorem watts_001_misreads_top_bits :
  valid Demo.top_bit_frame
  ∧ power Demo.top_bit_frame = Z2F 120
  ∧ calculate_watts EfergyLog Demo.top_bit_frame = (1, [Reading (Z2F 120)])
  ∧ calculate_watts (Efergy001 true) Demo.top_bit_frame = (1, [Reading (Z2F (-120))])
  ∧ calculate_watts (Efergy001 false) Demo.top_bit_frame
    = (1, [Reading (Z.ldexp (Z2F 240) 255)])
  ∧ PrimFloat.eqb (Z2F (-120)) (Z2F 120) = false
  ∧ PrimFloat.eqb (Z.ldexp (Z2F 240) 255) (Z2F 120) = false.
Proof. repeat split; vm_compute; reflexivity. Qed.

(** C3: a calibration started by a checksum failure adds the next
    [CENTERSAMP] samples to the centre of the previous calibration, which
    is not cleared: after a warm-up at level 1000 and a frame with a wrong
    checksum, one hundred samples at 0 (mean 0) install the centre 10. *)
Theorem recalibration_keeps_old_center :
  let s := run EfergyLog init (Demo.transmission 1000 Demo.bad_frame) in
  let next := replicate 100 0 in
  center s = 1000 ∧ dcenter s = CENTERSAMP
  ∧ mean next = 0 ∧ center (run EfergyLog s next) = 10
  ∧ dcenter (run EfergyLog s next) = 0.
Proof. repeat split; vm_compute; reflexivity. Qed.

(** ** The analysis mode *)

Section AnalysisFacts.
Import Analysis.

(** The decoder of the analysis mode applies the same thresholds to whole
    run lengths, where the primary loop applies them to the run length
    minus one.  Eight runs of four samples: the pulse loop stores the
    counts 4, which decode to the byte 0x00, and the primary loop emits no
    bit.  Eight runs of nine samples: the counts 9 decode to the byte 0xff,
    and the primary loop stores the byte 0x00. *)
Lemma analysis_decoder_counts_whole_runs :
  let four := concat (replicate 8 (Demo.pulse (-1000) 1000 4)) in
  let nine := concat (replicate 8 (Demo.pulse (-1000) 1000 9)) in
  pulse_count_storage (count_runs 0 four) = replicate 8 4
  ∧ decode_bytes_from_pulse_counts (replicate 8 4) = (1, replicate 9 0)
  ∧ assembly (run EfergyLog (Demo.framing EfergyLog) four) = assembly (Demo.framing EfergyLog)
  ∧ pulse_count_storage (count_runs 0 nine) = replicate 8 9
  ∧ decode_bytes_from_pulse_counts (replicate 8 9) = (1, 255 :: replicate 8 0)
  ∧ bytecount (run EfergyLog (Demo.framing EfergyLog) nine) = 1
  ∧ bytearray (run EfergyLog (Demo.framing EfergyLog) nine) !!! 0%nat = 0.
Proof.
  cbv zeta. do 6 (split; [vm_compute; reflexivity|]). vm_compute. reflexivity.
Qed.

(** The pulse loop fills each store with the closed runs of one
    polarity, independently of the other. *)
Lemma count_runs_stores c samples : ∀ r,
  pulse_count_storage (foldl (count_step c) r samples)
  = pulse_count_storage r ++ closed_runs (λ x, c <=? x) (pulse_count r) samples
  ∧ space_count_storage (foldl (count_step c) r samples)
    = space_count_storage r ++ closed_runs (λ x, x <? c) (space_count r) samples.
Proof.
  induction samples as [|x samples IH]; intros r; simpl.
  - now rewrite !app_nil_r.
  - destruct (IH (count_step c r x)) as [-> ->]. unfold count_step.
    destruct (x - c <? 0) eqn:E1; destruct (c <=? x) eqn:E2; try lia;
      destruct (x <? c) eqn:E3; try lia; simpl.
    + split; [|reflexivity]. destruct (0 <? pulse_count r); simpl.
      * now rewrite <- app_assoc.
      * reflexivity.
    + split; [reflexivity|]. destruct (0 <? space_count r); simpl.
      * now rewrite <- app_assoc.
      * reflexivity.
Qed.

Lemma store_size : Z.to_nat SAMPLE_STORE_SIZE = 1368%nat.
Proof. reflexivity. Qed.

(** The capture loop from slot [i]: the slots below [i] are kept, the
    next samples fill the rest, and the analysis runs on the full buffer. *)
Lemma capture_loop_fills c stdin : ∀ (i : nat) st,
  length st = Z.to_nat SAMPLE_STORE_SIZE →
  (i < Z.to_nat SAMPLE_STORE_SIZE)%nat →
  (Z.to_nat SAMPLE_STORE_SIZE - i ≤ length stdin)%nat →
  capture_loop (mkGlobals st (Z.of_nat i) c) stdin
  = (let '(g, rep) :=
       analyze_efergy_message
         (mkGlobals (take i st ++ take (Z.to_nat SAMPLE_STORE_SIZE - i) stdin)
            (SAMPLE_STORE_SIZE - 1) c) in
     (g, [rep], drop (Z.to_nat SAMPLE_STORE_SIZE - i) stdin)).
Proof.
  assert (HN : Z.to_nat SAMPLE_STORE_SIZE = 1368%nat) by reflexivity.
  assert (HZ : SAMPLE_STORE_SIZE = 1368) by reflexivity.
  rewrite HN, HZ. clear HN HZ.
  induction stdin as [|x stdin IH]; intros i st Hlen Hi Hin.
  - simpl in Hin. lia.
  - cbn [capture_loop sample_storage sample_store_index analysis_wavecenter].
    rewrite Nat2Z.id. change SAMPLE_STORE_SIZE with 1368.
    destruct (Z.of_nat i <? 1368 - 1) eqn:E.
    + replace (Z.of_nat i + 1) with (Z.of_nat (S i)) by lia.
      rewrite IH; [|rewrite length_insert; lia|lia|simpl in Hin; lia].
      replace (1368 - i)%nat with (S (1368 - S i)) by lia.
      rewrite (take_S_r (<[i:=x]> st) i x) by (apply list_lookup_insert_eq; lia).
      rewrite take_insert_ge by lia.
      cbn [take drop]. rewrite <- app_assoc. reflexivity.
    + assert (i = 1367%nat) as -> by lia.
      replace (1368 - 1367)%nat with 1%nat by lia.
      cbn [take drop].
      replace (<[1367%nat:=x]> st) with (take 1367 st ++ [x]).
      * replace (Z.of_nat 1367) with (1368 - 1) by lia. reflexivity.
      * rewrite <- (take_drop 1367 st) at 2.
        rewrite insert_app_r_alt by (rewrite length_take; lia).
        rewrite length_take. replace (1367 - 1367 `min` length st)%nat with 0%nat by lia.
        destruct (drop 1367 st) as [|y [|z tl]] eqn:Ed.
        -- apply (f_equal length) in Ed. rewrite length_drop in Ed. simpl in Ed. lia.
        -- reflexivity.
        -- apply (f_equal length) in Ed. rewrite length_drop in Ed. simpl in Ed. lia.
Qed.

(** C8: the analysis installs the recalibrated centre, and decodes from
    the store of positive runs (runs of samples at or above the centre)
    when the third captured sample is below that centre, and from the
    store of negative runs (runs of samples below the centre) otherwise. *)
Theorem polarity_selects_store g :
  let samples := take (Z.to_nat (sample_store_index g)) (sample_storage g) in
  let c := double_to_long (difference samples) in
  let third := sample_storage g !!! 2%nat in
  analysis_wavecenter (analyze_efergy_message g).1 = c
  ∧ (third < c →
       (analyze_efergy_message g).2
       = decoded PositivePulses (closed_runs (λ x, c <=? x) 0 samples))
  ∧ (c ≤ third →
       (analyze_efergy_message g).2
       = decoded NegativePulses (closed_runs (λ x, x <? c) 0 samples)).
Proof.
  intros samples c third. unfold analyze_efergy_message.
  cbn [sample_storage sample_store_index analysis_wavecenter fst snd].
  fold samples. fold c. fold third. unfold count_runs.
  destruct (count_runs_stores c samples (mkRuns 0 0 [] [])) as [Hp Hn].
  cbn [pulse_count_storage space_count_storage pulse_count space_count app] in Hp, Hn.
  rewrite Hp, Hn. unfold decoded.
  split; [reflexivity|]. split; intros H.
  - destruct (third <? c) eqn:E; [reflexivity|lia].
  - destruct (third <? c) eqn:E; [lia|reflexivity].
Qed.

(** C9 (amended): a capture stores the first [SAMPLE_STORE_SIZE] samples
    of the stream, each in its own slot, and stops reading there; the
    analysis then runs once, on the stored samples but the last.  No sample
    is dropped: the samples that follow stay on the stream and are the input
    of the next round of the outer loop, whose preamble search and capture
    read them.  The result does not depend on what the buffer and its index
    held before: the capture starts again at slot 0. *)
Theorem capture_stores_prefix g stdin :
  length (sample_storage g) = Z.to_nat SAMPLE_STORE_SIZE →
  (Z.to_nat SAMPLE_STORE_SIZE ≤ length stdin)%nat →
  let full := mkGlobals (captured stdin) (SAMPLE_STORE_SIZE - 1) (analysis_wavecenter g) in
  let later := drop (Z.to_nat SAMPLE_STORE_SIZE) stdin in
  capture g stdin
  = ((analyze_efergy_message full).1, [(analyze_efergy_message full).2], later)
  ∧ sample_storage (analyze_efergy_message full).1 = captured stdin
  ∧ take (Z.to_nat (sample_store_index full)) (sample_storage full) = analysed stdin
  ∧ ∀ fuel before, find_preamble (analysis_wavecenter g) 0 0 0 before = stdin →
      rounds (S fuel) g before
      = (analyze_efergy_message full).2 :: rounds fuel (analyze_efergy_message full).1 later.
Proof.
  intros Hlen Hin full later. unfold capture.
  pose proof (capture_loop_fills (analysis_wavecenter g) stdin 0 (sample_storage g)
                Hlen) as H.
  change (Z.of_nat 0) with 0 in H. rewrite Nat.sub_0_r in H.
  rewrite H by (try exact Hin; rewrite store_size; lia).
  change (take 0 (sample_storage g) ++ take (Z.to_nat SAMPLE_STORE_SIZE) stdin)
    with (captured stdin).
  fold full. fold later. destruct (analyze_efergy_message full) as [g' rep] eqn:Ea.
  cbn [fst snd].
  split; [reflexivity|]. split; [|split].
  - unfold analyze_efergy_message in Ea. injection Ea as <- _. reflexivity.
  - unfold full, captured, analysed. cbn [sample_store_index sample_storage].
    rewrite take_take. reflexivity.
  - intros fuel before Hb.
    destruct before as [|x before].
    { simpl in Hb. subst stdin. rewrite store_size in Hin. simpl in Hin. lia. }
    cbn [rounds]. unfold round, capture.
    rewrite Hb, H by (try exact Hin; rewrite store_size; lia).
    change (take 0 (sample_storage g) ++ take (Z.to_nat SAMPLE_STORE_SIZE) stdin)
      with (captured stdin).
    fold full. rewrite Ea. reflexivity.
Qed.

Lemma capture_stores_prefix_witness :
  sample_storage (capture start Demo.swing).1.1 = captured Demo.swing
  ∧ (capture start Demo.swing).2 = drop (Z.to_nat SAMPLE_STORE_SIZE) Demo.swing.
Proof.
  assert (H1 : length (sample_storage start) = Z.to_nat SAMPLE_STORE_SIZE)
    by (vm_compute; reflexivity).
  assert (H2 : (Z.to_nat SAMPLE_STORE_SIZE ≤ length Demo.swing)%nat)
    by (rewrite store_size; vm_compute; lia).
  pose proof (capture_stores_prefix start Demo.swing H1 H2) as H.
  cbv zeta in H. destruct H as (Hc & Hs & _).
  rewrite Hc. cbn [fst snd]. split; [exact Hs|reflexivity].
Defined.

(** C9 as stated fails: samples that arrive once the buffer is full are not
    dropped.  On a stream of two bursts, each a preamble followed by as many
    samples as the buffer holds, the first round stores the first burst and
    leaves the whole second burst on the stream; the second round stores
    the second burst, and two analyses are printed. *)
Lemma samples_after_full_buffer_are_captured :
  let first := round start Demo.two_bursts in
  let second := round first.1.1 first.2 in
  sample_storage first.1.1 = replicate 1368 400
  ∧ first.2 = Demo.preamble_swing ++ replicate 1368 (-400)
  ∧ sample_storage second.1.1 = replicate 1368 (-400)
  ∧ second.2 = []
  ∧ length (rounds (length Demo.two_bursts) start Demo.two_bursts) = 2%nat.
Proof.
  cbv zeta. do 4 (split; [vm_compute; reflexivity|]). vm_compute. reflexivity.
Qed.

End AnalysisFacts.

(** * Further properties of the code *)

(** ** [calculate_watts] *)

(** [EfergyRPI_log.c]: an accepted frame prints one line, whose value is
    the power of the unsigned big-endian reading and the signed exponent. *)
Theorem calculate_watts_log_prints_power (bytes : list Z) :
  frame_bytes bytes → valid bytes →
  calculate_watts EfergyLog bytes = (1, [Reading (power bytes)]).
Proof.
  intros Hfb Hv. rewrite (calculate_watts_valid EfergyLog bytes Hfb Hv).
  now rewrite (watts_log_is_power bytes Hfb).
Qed.

Lemma schar_small x : 0 ≤ x < 128 → schar x = x.
Proof. intros. unfold schar. rewrite Z.mod_small by lia. lia. Qed.

Lemma frame_bytes_good_storage : frame_bytes Demo.good_storage.
Proof.
  split; [reflexivity|].
  repeat (apply Forall_cons; split; [vm_compute; split; congruence|]). apply Forall_nil_2.
Defined.

Lemma calculate_watts_log_prints_power_witness :
  calculate_watts EfergyLog Demo.good_storage = (1, [Reading (power Demo.good_storage)]).
Proof.
  apply (calculate_watts_log_prints_power Demo.good_storage frame_bytes_good_storage).
  vm_compute. reflexivity.
Defined.

(** The two files, and either signedness of plain [char], accept the same
    frames: the checksum test only depends on the 8-bit patterns. *)
Theorem calculate_watts_accepts_same v v' (bytes : list Z) :
  frame_bytes bytes →
  fst (calculate_watts v bytes) = fst (calculate_watts v' bytes).
Proof.
  intros Hfb. destruct (valid_dec bytes) as [Hv|Hv].
  - now rewrite !calculate_watts_valid.
  - destruct (calculate_watts_invalid v bytes Hfb Hv) as [-> _].
    destruct (calculate_watts_invalid v' bytes Hfb Hv) as [-> _]. reflexivity.
Qed.

Lemma calculate_watts_accepts_same_witness :
  fst (calculate_watts (Efergy001 true) Demo.good_storage)
  = fst (calculate_watts EfergyLog Demo.good_storage).
Proof.
  exact (calculate_watts_accepts_same (Efergy001 true) EfergyLog Demo.good_storage
           frame_bytes_good_storage).
Defined.

(** [EfergyRPI_001.c] prints the value of [EfergyRPI_log.c] as long as the
    top bits it misreads are clear: those of bytes 4 and 5 where plain
    [char] is signed, that of byte 6 where it is unsigned. *)
Theorem watts_001_agrees_below_top_bit sg (bytes : list Z) :
  frame_bytes bytes →
  (if sg : bool then bytes !!! 4%nat < 128 ∧ bytes !!! 5%nat < 128
   else bytes !!! 6%nat < 128) →
  watts (Efergy001 sg) bytes = watts EfergyLog bytes.
Proof.
  intros Hfb Htop. unfold watts, exponent, elt, plain_char.
  nine_bytes Hfb. simpl in *.
  destruct sg.
  - destruct Htop.
    match goal with
    | |- context [Z2F (schar ?a * 256 + schar ?b)] =>
        rewrite (schar_small a), (schar_small b), (uchar_small a), (uchar_small b) by lia
    end.
    now rewrite schar_uchar.
  - match goal with
    | |- context [pow2 (schar (uchar ?a))] =>
        rewrite (uchar_small a), (schar_small a) by lia
    end.
    reflexivity.
Qed.

Lemma watts_001_agrees_below_top_bit_witness :
  watts (Efergy001 true) Demo.good_storage = watts EfergyLog Demo.good_storage.
Proof.
  apply (watts_001_agrees_below_top_bit true Demo.good_storage frame_bytes_good_storage).
  vm_compute. split; reflexivity.
Defined.

(** ** The calibration *)

(** At start-up the first [CENTERSAMP] samples install their truncated
    mean as the wave centre; nothing is decoded or printed meanwhile. *)
Theorem startup_calibration_is_mean v (samples : list Z) :
  Z.of_nat (length samples) = CENTERSAMP →
  center (run v init samples) = mean samples
  ∧ dcenter (run v init samples) = 0
  ∧ framing_cleared (run v init samples)
  ∧ out (run v init samples) = [].
Proof.
  intros Hlen.
  destruct (calibration_completes v init samples) as (Hd & Hc & Hf & Ho & _);
    [reflexivity|exact Hlen|].
  rewrite Hc, Ho. unfold mean. simpl. auto.
Qed.

Lemma startup_calibration_is_mean_witness :
  center (run EfergyLog init (replicate 100 7)) = mean (replicate 100 7)
  ∧ dcenter (run EfergyLog init (replicate 100 7)) = 0
  ∧ framing_cleared (run EfergyLog init (replicate 100 7))
  ∧ out (run EfergyLog init (replicate 100 7)) = [].
Proof.
  apply (startup_calibration_is_mean EfergyLog (replicate 100 7)). reflexivity.
Defined.

(** After a frame with a wrong checksum, the next [CENTERSAMP] samples
    install the truncated quotient of (previous centre + their sum) by
    [CENTERSAMP]: the accumulator starts from the previous centre. *)
Theorem recalibration_starts_from_old_center v history cursamp (next : list Z) :
  completes_frame (run v init history) cursamp = true →
  ¬ valid (completed_frame (run v init history)) →
  Z.of_nat (length next) = CENTERSAMP →
  center (run v (tick v (run v init history) cursamp) next)
  = Z.quot (center (run v init history) + total next) CENTERSAMP.
Proof.
  intros Hc Hv Hlen. set (s := run v init history) in *.
  pose proof (invariant_reachable v history) as Hinv. fold s in Hinv.
  destruct (tick_completes v s cursamp Hinv Hc) as (_ & _ & Hd).
  destruct (calculate_watts_invalid v _ (completed_frame_bytes s Hinv) Hv) as [H0 _].
  rewrite H0 in Hd. change (dcenter (tick v s cursamp) = CENTERSAMP) in Hd.
  destruct (calibration_completes v (tick v s cursamp) next) as (_ & Hcen & _);
    [rewrite Hd; reflexivity|now rewrite Hd|].
  rewrite Hcen. f_equal. f_equal. apply decoding_tick_keeps_center.
  unfold completes_frame in Hc. lia.
Qed.

Lemma recalibration_starts_from_old_center_witness :
  center (run EfergyLog (tick EfergyLog (run EfergyLog init Demo.bad_history) (-1000))
            (replicate 100 50))
  = Z.quot (center (run EfergyLog init Demo.bad_history) + total (replicate 100 50))
      CENTERSAMP.
Proof.
  apply (recalibration_starts_from_old_center EfergyLog Demo.bad_history (-1000)
           (replicate 100 50)).
  - vm_compute. reflexivity.
  - vm_compute. discriminate.
  - reflexivity.
Defined.

Lemma output_only_on_completion_witness :
  out (tick EfergyLog (Demo.mid_run EfergyLog) (-1000)) = out (Demo.mid_run EfergyLog).
Proof.
  apply (output_only_on_completion EfergyLog (Demo.mid_run EfergyLog) (-1000)).
  vm_compute. reflexivity.
Defined.

(** ** Storage safety *)

(** Between iterations the byte accumulator is non-negative and below
    2^[bitpos], at most 128: it holds the bits received so far and nothing
    else.  [bytearray] keeps its nine slots with 8-bit contents, and a
    completed byte is stored at an index within the frame. *)
Theorem accumulator_and_storage_safe v history :
  let s := run v init history in
  0 ≤ bytedata s < 2 ^ bitpos s ∧ 2 ^ bitpos s ≤ 128
  ∧ length (bytearray s) = 9%nat
  ∧ Forall (λ b, 0 ≤ b < 256) (bytearray s)
  ∧ ∀ cursamp, classifies s cursamp = true → bitpos s = 7 →
      0 ≤ bytecount s < E2BYTECOUNT
      ∧ bytearray (tick v s cursamp) = <[Z.to_nat (bytecount s) := closing_byte s]> (bytearray s)
      ∧ 0 ≤ closing_byte s < 256.
Proof.
  intros s. pose proof (invariant_reachable v history) as Hinv. fold s in Hinv.
  clearbody s. destruct Hinv.
  pose proof (pow2_bitpos _ inv_bitpos0) as [_ Hp].
  split; [exact inv_bytedata0|]. split; [lia|]. split; [exact inv_length0|].
  split; [exact inv_bytes0|].
  intros cursamp Hc Hb. consts. split; [lia|]. split; [|apply closing_byte_range].
  unfold classifies in Hc. unfold tick, cases, handoff, classify_bit, store_byte,
    reset_frame, positive_edge, continuing_high, negative_edge, closing_byte in *.
  simp_state. consts.
  destruct (calculate_watts v _) as [ok lines].
  split_ifs; simp_state; try reflexivity; lia.
Qed.

(** For 16-bit samples the centre accumulator stays far inside a 32-bit
    [long], whatever the number of recalibrations. *)
Lemma center_fits_long v (history : list Z) :
  Forall (λ x, -32768 ≤ x ≤ 32767) history →
  - 3309900 ≤ center (run v init history) ≤ 3309900.
Proof.
  intros Hall.
  assert (Hgen : ∀ s, (0 ≤ dcenter s ≤ 100
                       ∧ - (33100 + (100 - dcenter s) * 32768) ≤ center s
                         ≤ 33100 + (100 - dcenter s) * 32768
                       ∧ (dcenter s = 0 → - 33100 ≤ center s ≤ 33100)) →
                 let s' := run v s history in
                 0 ≤ dcenter s' ≤ 100
                 ∧ - (33100 + (100 - dcenter s') * 32768) ≤ center s'
                   ≤ 33100 + (100 - dcenter s') * 32768
                 ∧ (dcenter s' = 0 → - 33100 ≤ center s' ≤ 33100)).
  { induction Hall as [|x history Hx Hall IH]; intros s Hs; [exact Hs|].
    change (run v s (x :: history)) with (run v (tick v s x) history).
    apply IH. clear IH. destruct Hs as (Hd & Hc & H0).
    assert (Hkeep : ∀ t, center (classify_bit v t) = center t
                         ∧ (dcenter (classify_bit v t) = dcenter t
                            ∨ dcenter (classify_bit v t) = 100)).
    { intros t. unfold classify_bit, store_byte, reset_frame. simp_state. consts.
      destruct (calculate_watts v _) as [ok lines]. split_ifs; simp_state; auto. }
    unfold tick, calibrate, reinit_frame, handoff, cases. consts.
    destruct (0 <? dcenter s) eqn:E.
    - simp_state. destruct (dcenter s - 1 =? 0) eqn:E1; simp_state.
      + pose proof (Z.quot_rem' (center s + x) 100).
        pose proof (Z.rem_bound_abs (center s + x) 100 ltac:(lia)).
        repeat split; try lia.
      + repeat split; lia.
    - destruct (Hkeep s) as [Hk1 Hk2].
      split_ifs; simp_state; rewrite ?Hk1; repeat split; try lia. }
  destruct (Hgen init) as (Hd & Hc & _); [simpl; unfold CENTERSAMP; lia|].
  lia.
Qed.

Lemma center_fits_long_witness :
  - 3309900 ≤ center (run EfergyLog init [5; 6; 7]) ≤ 3309900.
Proof.
  apply (center_fits_long EfergyLog [5; 6; 7]).
  repeat (apply Forall_cons; split; [lia|]). apply Forall_nil_2.
Defined.

(** ** Preambles *)

Lemma prvsamp_tick v s x : prvsamp (tick v s x) = x.
Proof. reflexivity. Qed.

(** The flags along samples above the centre, read while the previous
    sample is above it too. *)
Lemma run_highs_flags v highs : ∀ s,
  dcenter s = 0 → center s < prvsamp s → 0 ≤ hctr s →
  Forall (λ x, center s < x) highs →
  preamble (run v s highs)
  = (if (PREAMBLE_COUNT <? hctr s + Z.of_nat (length highs)) && (0 <? Z.of_nat (length highs))
     then 1 else preamble s)
  ∧ frame (run v s highs) = frame s.
Proof.
  induction highs as [|x highs IH]; intros s Hd Hp Hh Hall.
  - simpl. rewrite andb_false_r. auto.
  - apply Forall_cons in Hall as [Hx Hall].
    destruct (tick_high v s x Hd Hx) as (Ha & Hc & Hpx & _ & Hhx).
    assert (Hd1 : dcenter (tick v s x) = 0) by (unfold assembly in Ha; congruence).
    assert (Hflags : preamble (tick v s x) = (if PREAMBLE_COUNT <? hctr s + 1 then 1 else preamble s)
                     ∧ frame (tick v s x) = frame s).
    { unfold tick, cases, handoff, positive_edge, continuing_high, negative_edge.
      simp_state. consts. split_ifs; simp_state; split; try reflexivity; lia. }
    destruct Hflags as [Hpre Hfr].
    destruct (center s <? prvsamp s) eqn:E; [|lia].
    change (run v s (x :: highs)) with (run v (tick v s x) highs).
    destruct (IH (tick v s x)) as [-> ->]; [exact Hd1|lia|lia|now rewrite Hc|].
    rewrite Hpre, Hfr, Hhx, length_cons. consts. split; [|reflexivity].
    split_ifs; lia.
Qed.

(** A high run and its closing edge, while the decoder is not framing. *)
Lemma preamble_run_effect v s (highs : list Z) low :
  dcenter s = 0 → frame s = 0 → preamble s = 0 → prvsamp s ≤ center s →
  Forall (λ x, center s < x) highs → low < center s →
  let s' := run v s (highs ++ [low]) in
  assembly s' = assembly s ∧ preamble s' = 0 ∧ hctr s' = 0
  ∧ frame s' = (if PREAMBLE_COUNT <? Z.of_nat (length highs) - 1 then 1 else 0)
  ∧ center s' = center s ∧ prvsamp s' = low.
Proof.
  intros Hd Hf Hpre Hp Hall Hlow. cbv zeta. rewrite run_snoc.
  rewrite prvsamp_tick.
  assert (Hcen : center (tick v (run v s highs) low) = center s).
  { destruct (run_highs_assembly v highs s Hd Hall) as [Ha0 Hc0].
    rewrite decoding_tick_keeps_center; [exact Hc0|].
    unfold assembly in Ha0. assert (dcenter (run v s highs) = 0) by congruence. lia. }
  rewrite Hcen. clear Hcen.
  destruct highs as [|x highs].
  - simpl. unfold tick, cases, handoff, positive_edge, continuing_high, negative_edge,
      assembly.
    simp_state. consts. split_ifs; simp_state; repeat split; try reflexivity; lia.
  - apply Forall_cons in Hall as [Hx Hall].
    destruct (tick_high v s x Hd Hx) as (Ha & Hc & Hpx & _ & Hhx).
    assert (Hd1 : dcenter (tick v s x) = 0) by (unfold assembly in Ha; congruence).
    assert (Hflags : preamble (tick v s x) = 0 ∧ frame (tick v s x) = 0).
    { unfold tick, cases, handoff, positive_edge, continuing_high, negative_edge.
      simp_state. consts. split_ifs; simp_state; split; try reflexivity; lia. }
    destruct Hflags as [Hpre1 Hfr1].
    destruct (center s <? prvsamp s) eqn:E; [lia|].
    change (run v s (x :: highs)) with (run v (tick v s x) highs).
    set (s1 := tick v s x) in *.
    destruct (run_highs_continuing v highs s1) as (Ha' & Hc' & Hp' & _ & Hh');
      [exact Hd1|lia|now rewrite Hc|].
    destruct (run_highs_flags v highs s1) as [Hpre' Hfr'];
      [exact Hd1|lia|lia|now rewrite Hc|].
    set (t := run v s1 highs) in *.
    rewrite Hhx in Hh'. rewrite Hpre1, Hhx in Hpre'. rewrite Hfr1 in Hfr'.
    assert (Hdt : dcenter t = 0) by (unfold assembly in Ha'; congruence).
    rewrite length_cons.
    assert (Hat : assembly (tick v t low) = assembly t
                  ∧ preamble (tick v t low) = 0 ∧ hctr (tick v t low) = 0
                  ∧ frame (tick v t low) = (if preamble t =? 1 then 1 else 0)).
    { unfold tick, cases, handoff, positive_edge, continuing_high, negative_edge,
        assembly.
      rewrite Hfr', Hdt. simp_state. consts.
      assert (Hq : (3 <? hctr t) && (0 =? 1) = false) by apply andb_false_r.
      rewrite Hq.
      assert (Hpt : preamble t = 0 ∨ preamble t = 1).
      { rewrite Hpre'. split_ifs; auto. }
      assert (Hht : 0 ≤ hctr t) by lia.
      clear Hpre' Hh'.
      split_ifs; simp_state; repeat split; try reflexivity; try lia; congruence. }
    destruct Hat as (-> & -> & -> & ->). rewrite Ha', Ha.
    repeat split; try reflexivity.
    rewrite Hpre'. consts.
    destruct ((40 <? 0 + Z.of_nat (length highs)) && (0 <? Z.of_nat (length highs))) eqn:Ec;
      [change (1 =? 1) with true|change (0 =? 1) with false]; cbv iota;
      split_ifs; try reflexivity; lia.
Qed.

(** While the decoder is not framing, a high run starts framing at its
    closing edge exactly when it has at least [PREAMBLE_COUNT] + 2 samples
    (the pulse counter, one less than the number of samples, must exceed
    [PREAMBLE_COUNT]); the frame assembly is untouched either way. *)
Theorem preamble_run_starts_framing v s (highs : list Z) low :
  dcenter s = 0 → frame s = 0 → preamble s = 0 → prvsamp s ≤ center s →
  Forall (λ x, center s < x) highs → low < center s →
  (frame (run v s (highs ++ [low])) = 1 ↔ PREAMBLE_COUNT + 2 ≤ Z.of_nat (length highs))
  ∧ assembly (run v s (highs ++ [low])) = assembly s
  ∧ preamble (run v s (highs ++ [low])) = 0.
Proof.
  intros Hd Hf Hpre Hp Hall Hlow.
  destruct (preamble_run_effect v s highs low Hd Hf Hpre Hp Hall Hlow)
    as (Ha & Hpr & _ & Hfr & _).
  split; [|auto]. rewrite Hfr. unfold PREAMBLE_COUNT.
  destruct (40 <? Z.of_nat (length highs) - 1) eqn:E; lia.
Qed.

Lemma preamble_run_starts_framing_witness :
  (frame (run EfergyLog (run EfergyLog init (replicate 100 0)) (replicate 45 1000 ++ [-1000]))
   = 1 ↔ PREAMBLE_COUNT + 2 ≤ Z.of_nat (length (replicate 45 1000)))
  ∧ assembly (run EfergyLog (run EfergyLog init (replicate 100 0))
                (replicate 45 1000 ++ [-1000]))
    = assembly (run EfergyLog init (replicate 100 0))
  ∧ preamble (run EfergyLog (run EfergyLog init (replicate 100 0))
                (replicate 45 1000 ++ [-1000])) = 0.
Proof.
  apply (preamble_run_starts_framing EfergyLog (run EfergyLog init (replicate 100 0))
           (replicate 45 1000) (-1000)).
  - vm_compute. reflexivity.
  - vm_compute. reflexivity.
  - vm_compute. reflexivity.
  - vm_compute. discriminate.
  - repeat (apply Forall_cons; split; [vm_compute; reflexivity|]). apply Forall_nil_2.
  - vm_compute. reflexivity.
Defined.

(** ** Receiving a frame, bit by bit *)

(** Framing stays active across a tick unless the bit tally overflows. *)
Lemma tick_keeps_framing v s x :
  dcenter s = 0 → frame s = 1 → dbit s + 1 ≤ FRAMEBITCOUNT → frame (tick v s x) = 1.
Proof.
  intros Hd Hf Hb. unfold tick, cases, handoff, classify_bit, store_byte, reset_frame.
  simp_state. consts.
  destruct (calculate_watts v _) as [ok lines].
  split_ifs; simp_state; try reflexivity; lia.
Qed.

Lemma assembly_inv s a b c d e f g :
  assembly s = (a, b, c, d, e, f, g) →
  dbit s = a ∧ bitpos s = b ∧ bytecount s = c ∧ bytedata s = d
  ∧ bytearray s = e ∧ out s = f ∧ dcenter s = g.
Proof. unfold assembly. intros H. injection H. auto 10. Qed.

(** A pushed bit inside a byte. *)
Lemma push_bit_no_store v (b : bool) s :
  bitpos s + 1 ≤ 7 → dbit s + 1 ≤ FRAMEBITCOUNT →
  assembly (push_bit v b s)
  = (dbit s + 1, bitpos s + 1, bytecount s,
     (2 * bytedata s + (if b then 1 else 0)) mod 256, bytearray s, out s, dcenter s).
Proof.
  intros Hp Hb. unfold push_bit, assembly. simp_state. consts.
  split_ifs; simp_state; try reflexivity; lia.
Qed.

(** A pushed bit that closes a byte. *)
Lemma push_bit_store v (b : bool) s :
  bitpos s = 7 → dbit s + 1 ≤ FRAMEBITCOUNT →
  let byte := (2 * bytedata s + (if b then 1 else 0)) mod 256 in
  let stored := <[Z.to_nat (bytecount s) := byte]> (bytearray s) in
  assembly (push_bit v b s)
  = (dbit s + 1, 0, bytecount s + 1, 0, stored,
     (if bytecount s + 1 =? E2BYTECOUNT
      then out s ++ snd (calculate_watts v stored) else out s),
     (if (bytecount s + 1 =? E2BYTECOUNT) && (fst (calculate_watts v stored) =? 0)
      then CENTERSAMP else dcenter s)).
Proof.
  intros Hp Hb. unfold push_bit, store_byte, assembly. simp_state. consts.
  destruct (calculate_watts v _) as [ok lines]. cbn [fst snd].
  split_ifs; simp_state; try reflexivity; lia.
Qed.

(** One transmitted bit, received while framing. *)
Lemma bit_step v s lo hi (b : bool) :
  dcenter s = 0 → frame s = 1 → prvsamp s ≤ center s →
  lo < center s → center s < hi → dbit s + 1 ≤ FRAMEBITCOUNT →
  let s' := run v s (Demo.bit_pulse lo hi b) in
  assembly s' = assembly (push_bit v b s)
  ∧ center s' = center s ∧ prvsamp s' = lo ∧ frame s' = 1.
Proof.
  intros Hd Hf Hp Hlo Hhi Hb. cbv zeta. unfold Demo.bit_pulse, Demo.pulse.
  set (k := if b then 10%nat else 5%nat).
  assert (Hk : Z.of_nat k - 1 = (if b then 9 else 4)) by (destruct b; reflexivity).
  rewrite run_snoc.
  destruct (run_highs_from_low v (replicate k hi) s) as (Ha & Hc & Hp' & Hf' & Hh);
    [exact Hd|exact Hp|destruct b; discriminate|apply Forall_replicate; exact Hhi|].
  rewrite length_replicate, Hk in Hh.
  set (t := run v s (replicate k hi)) in *.
  assert (Hdt : dcenter t = 0) by (unfold assembly in Ha; congruence).
  assert (Hbt : dbit t = dbit s) by (unfold assembly in Ha; congruence).
  destruct (tick_negative_edge v t lo) as [He _]; [exact Hdt|lia|lia|].
  unfold edge_classified in He. rewrite (Hf' Hf), Hh in He.
  assert (Hq : (MINLOWBIT <? (if b then 9 else 4)) && (1 =? 1) = true)
    by (destruct b; reflexivity).
  assert (Hbit : (MINHIGHBIT <? (if b then 9 else 4)) = b) by (destruct b; reflexivity).
  rewrite Hq, Hbit in He.
  split; [rewrite He; apply push_bit_assembly, Ha|].
  split; [rewrite decoding_tick_keeps_center by lia; exact Hc|].
  split; [apply prvsamp_tick|].
  apply tick_keeps_framing; [exact Hdt|auto|lia].
Qed.

(** Bits received inside a byte. *)
Lemma bits_step v lo hi bits : ∀ s,
  dcenter s = 0 → frame s = 1 → prvsamp s ≤ center s →
  lo < center s → center s < hi →
  bitpos s + Z.of_nat (length bits) ≤ 7 → dbit s + Z.of_nat (length bits) ≤ FRAMEBITCOUNT →
  let s' := run v s (concat (map (Demo.bit_pulse lo hi) bits)) in
  assembly s'
  = (dbit s + Z.of_nat (length bits), bitpos s + Z.of_nat (length bits), bytecount s,
     shift_in (bytedata s) bits, bytearray s, out s, 0)
  ∧ center s' = center s ∧ prvsamp s' ≤ center s' ∧ frame s' = 1.
Proof.
  induction bits as [|b bits IH]; intros s Hd Hf Hp Hlo Hhi Hbp Hdb.
  - simpl. unfold assembly. rewrite Hd, !Z.add_0_r. auto.
  - rewrite length_cons in Hbp, Hdb.
    cbn [map concat]. cbv zeta. rewrite run_app.
    destruct (bit_step v s lo hi b) as (Ha & Hc & Hpl & Hfr); try assumption; [lia|].
    rewrite push_bit_no_store in Ha by lia.
    set (s1 := run v s (Demo.bit_pulse lo hi b)) in *.
    apply assembly_inv in Ha as (Hdb1 & Hbp1 & Hbc1 & Hbd1 & Hba1 & Ho1 & Hdc1).
    destruct (IH s1) as (Ha' & Hc' & Hp' & Hf'); try lia; try assumption.
    rewrite Ha', Hc', Hdb1, Hbp1, Hbc1, Hbd1, Hba1, Ho1, Hc, length_cons.
    split; [|rewrite Hc', Hc in Hp'; auto].
    replace (dbit s + Z.of_nat (S (length bits))) with (dbit s + 1 + Z.of_nat (length bits))
      by lia.
    replace (bitpos s + Z.of_nat (S (length bits)))
      with (bitpos s + 1 + Z.of_nat (length bits)) by lia.
    reflexivity.
Qed.

(** Eight bits shifted in, most significant first, give the byte back. *)
Lemma shift_in_byte_bits b : 0 ≤ b < 256 → shift_in 0 (Demo.byte_bits b) = b.
Proof.
  intros Hb.
  assert (Hall : forallb (λ n, shift_in 0 (Demo.byte_bits (Z.of_nat n)) =? Z.of_nat n)
                   (seq 0 256) = true) by (vm_compute; reflexivity).
  rewrite forallb_forall in Hall. specialize (Hall (Z.to_nat b)).
  rewrite Z2Nat.id in Hall by lia. apply Z.eqb_eq, Hall, in_seq. lia.
Qed.

(** The eight bits of one transmitted byte, received at a byte boundary:
    the byte is stored at [bytecount]; the eighth byte of the frame is
    handed to [calculate_watts]. *)
Lemma byte_step v s lo hi b :
  dcenter s = 0 → frame s = 1 → prvsamp s ≤ center s →
  lo < center s → center s < hi →
  bitpos s = 0 → bytedata s = 0 → dbit s + 8 ≤ FRAMEBITCOUNT → 0 ≤ b < 256 →
  let s' := run v s (concat (map (Demo.bit_pulse lo hi) (Demo.byte_bits b))) in
  let stored := <[Z.to_nat (bytecount s) := b]> (bytearray s) in
  assembly s'
  = (dbit s + 8, 0, bytecount s + 1, 0, stored,
     (if bytecount s + 1 =? E2BYTECOUNT
      then out s ++ snd (calculate_watts v stored) else out s),
     (if (bytecount s + 1 =? E2BYTECOUNT) && (fst (calculate_watts v stored) =? 0)
      then CENTERSAMP else 0))
  ∧ center s' = center s ∧ prvsamp s' ≤ center s' ∧ frame s' = 1.
Proof.
  intros Hd Hf Hp Hlo Hhi Hbp Hbd Hdb Hb. cbv zeta.
  pose proof (shift_in_byte_bits b Hb) as Hval.
  change (Demo.byte_bits b)
    with (map (Z.testbit b) [7; 6; 5; 4; 3; 2; 1] ++ [Z.testbit b 0]) in *.
  set (first7 := map (Z.testbit b) [7; 6; 5; 4; 3; 2; 1]) in *.
  rewrite map_app, concat_app, run_app.
  destruct (bits_step v lo hi first7 s) as (Ha & Hc & Hp1 & Hf1); try assumption.
  { rewrite Hbp. simpl. lia. }
  { unfold FRAMEBITCOUNT, E2BYTECOUNT in *. simpl. lia. }
  set (s1 := run v s (concat (map (Demo.bit_pulse lo hi) first7))) in *.
  apply assembly_inv in Ha as (Hdb1 & Hbp1 & Hbc1 & Hbd1 & Hba1 & Ho1 & Hdc1).
  change (Z.of_nat (length first7)) with 7 in Hdb1, Hbp1.
  cbn [map concat]. rewrite app_nil_r.
  destruct (bit_step v s1 lo hi (Z.testbit b 0)) as (Ha2 & Hc2 & Hp2 & Hf2);
    try assumption; try (unfold FRAMEBITCOUNT, E2BYTECOUNT in *; lia).
  rewrite push_bit_store in Ha2
    by (unfold FRAMEBITCOUNT, E2BYTECOUNT in *; lia).
  cbv zeta in Ha2. rewrite Ha2, Hc2, Hp2, Hdb1, Hbc1, Hbd1, Hba1, Ho1, Hdc1, Hc, Hbd.
  unfold shift_in in Hval. rewrite foldl_snoc in Hval. fold (shift_in 0 first7) in Hval.
  rewrite Hval.
  split; [|auto with zarith].
  replace (dbit s + 7 + 1) with (dbit s + 8) by lia. reflexivity.
Qed.

Lemma frame_samples_app lo hi l1 l2 :
  Demo.frame_samples lo hi (l1 ++ l2)
  = Demo.frame_samples lo hi l1 ++ Demo.frame_samples lo hi l2.
Proof.
  unfold Demo.frame_samples. now rewrite map_app, concat_app, map_app, concat_app.
Qed.

Lemma frame_samples_cons lo hi b l :
  Demo.frame_samples lo hi (b :: l)
  = concat (map (Demo.bit_pulse lo hi) (Demo.byte_bits b)) ++ Demo.frame_samples lo hi l.
Proof. apply (frame_samples_app lo hi [b] l). Qed.

(** The bytes of a transmission received before the frame is complete. *)
Lemma bytes_step v lo hi (bytes : list Z) : ∀ s (done rest : list Z),
  dcenter s = 0 → frame s = 1 → prvsamp s ≤ center s →
  lo < center s → center s < hi →
  bitpos s = 0 → bytedata s = 0 →
  bytecount s = Z.of_nat (length done) → dbit s = 8 * bytecount s →
  bytearray s = done ++ rest → (length bytes ≤ length rest)%nat →
  Z.of_nat (length done + length bytes) < E2BYTECOUNT →
  Forall (λ b, 0 ≤ b < 256) bytes →
  let s' := run v s (Demo.frame_samples lo hi bytes) in
  assembly s'
  = (dbit s + 8 * Z.of_nat (length bytes), 0, bytecount s + Z.of_nat (length bytes), 0,
     done ++ bytes ++ drop (length bytes) rest, out s, 0)
  ∧ center s' = center s ∧ prvsamp s' ≤ center s' ∧ frame s' = 1.
Proof.
  induction bytes as [|b bytes IH];
    intros s done rest Hd Hf Hp Hlo Hhi Hbp Hbd Hbc Hdb Hba Hlen Hcnt Hall.
  - simpl. unfold assembly. rewrite Hd, Hbp, Hbd, Hba, !Z.add_0_r. auto.
  - apply Forall_cons in Hall as [Hb Hall]. rewrite length_cons in Hlen, Hcnt.
    destruct rest as [|r rest]; [simpl in Hlen; lia|]. simpl in Hlen.
    rewrite frame_samples_cons. cbv zeta. rewrite run_app.
    destruct (byte_step v s lo hi b) as (Ha & Hc & Hp1 & Hf1); try assumption.
    { unfold FRAMEBITCOUNT, E2BYTECOUNT in *. lia. }
    set (s1 := run v s (concat (map (Demo.bit_pulse lo hi) (Demo.byte_bits b)))) in *.
    assert (Hne : (bytecount s + 1 =? E2BYTECOUNT) = false)
      by (unfold E2BYTECOUNT in *; lia).
    rewrite Hne in Ha. cbn [andb] in Ha.
    apply assembly_inv in Ha as (Hdb1 & Hbp1 & Hbc1 & Hbd1 & Hba1 & Ho1 & Hdc1).
    assert (Hstored : bytearray s1 = (done ++ [b]) ++ rest).
    { rewrite Hba1, Hba, Hbc, Nat2Z.id.
      rewrite insert_app_r_alt by lia. rewrite Nat.sub_diag. simpl.
      now rewrite <- app_assoc. }
    destruct (IH s1 (done ++ [b]) rest) as (Ha' & Hc' & Hp' & Hf'); try assumption;
      try lia.
    { rewrite Hbc1, Hbc, length_app. simpl. lia. }
    { rewrite length_app. simpl. unfold E2BYTECOUNT in *. lia. }
    rewrite Ha', Hc', Hdb1, Hbc1, Ho1, Hc, length_cons.
    split; [|rewrite Hc', Hc in Hp'; auto].
    rewrite <- app_assoc. simpl.
    replace (dbit s + 8 + 8 * Z.of_nat (length bytes))
      with (dbit s + 8 * Z.of_nat (S (length bytes))) by lia.
    replace (bytecount s + 1 + Z.of_nat (length bytes))
      with (bytecount s + Z.of_nat (S (length bytes))) by lia.
    reflexivity.
Qed.

(** Validity only reads the eight bytes of the frame. *)
Lemma valid_frame_prefix (bytes rest : list Z) :
  length bytes = 8%nat → (valid (bytes ++ rest) ↔ valid bytes).
Proof.
  intros Hlen. unfold valid, byte_sum.
  do 8 (destruct bytes as [|? bytes]; [discriminate|]).
  destruct bytes; [|discriminate]. reflexivity.
Qed.

(** The sixty-four bits of a transmitted frame, received from the first
    bit boundary. *)
Lemma frame_received v s lo hi (bytes : list Z) :
  dcenter s = 0 → frame s = 1 → prvsamp s ≤ center s →
  lo < center s → center s < hi →
  bitpos s = 0 → bytedata s = 0 → bytecount s = 0 → dbit s = 0 →
  length (bytearray s) = 9%nat → Forall (λ b, 0 ≤ b < 256) (bytearray s) →
  length bytes = 8%nat → Forall (λ b, 0 ≤ b < 256) bytes →
  let s' := run v s (Demo.frame_samples lo hi bytes) in
  let stored := bytes ++ drop 8 (bytearray s) in
  assembly s'
  = (FRAMEBITCOUNT, 0, E2BYTECOUNT, 0, stored, out s ++ snd (calculate_watts v stored),
     if fst (calculate_watts v stored) =? 0 then CENTERSAMP else 0)
  ∧ frame s' = 1 ∧ frame_bytes stored.
Proof.
  intros Hd Hf Hp Hlo Hhi Hbp Hbd Hbc Hdb Hlen Harr Hlb Hall. cbv zeta.
  assert (Hfb : frame_bytes (bytes ++ drop 8 (bytearray s))).
  { split.
    - rewrite length_app, length_drop. lia.
    - apply Forall_app. split; [exact Hall|]. apply Forall_drop, Harr. }
  split; [|split; [|exact Hfb]].
  - destruct bytes as [|b0 [|b1 [|b2 [|b3 [|b4 [|b5 [|b6 [|b7 [|]]]]]]]]];
      try discriminate Hlb.
    change [b0; b1; b2; b3; b4; b5; b6; b7] with ([b0; b1; b2; b3; b4; b5; b6] ++ [b7]) in *.
    apply Forall_app in Hall as [Hall7 Hall1]. apply Forall_cons in Hall1 as [Hb7 _].
    rewrite frame_samples_app, run_app.
    destruct (bytes_step v lo hi [b0; b1; b2; b3; b4; b5; b6] s [] (bytearray s))
      as (Ha & Hc & Hp1 & Hf1); try assumption; try reflexivity.
    { rewrite Hbc. lia. }
    { rewrite Hlen. simpl. lia. }
    set (s1 := run v s (Demo.frame_samples lo hi [b0; b1; b2; b3; b4; b5; b6])) in *.
    apply assembly_inv in Ha as (Hdb1 & Hbp1 & Hbc1 & Hbd1 & Hba1 & Ho1 & Hdc1).
    rewrite Hdb, Hbc in *. cbn [length app] in Hdb1, Hbc1, Hba1.
    rewrite (frame_samples_cons lo hi b7 []).
    change (Demo.frame_samples lo hi []) with (@nil Z). rewrite app_nil_r.
    destruct (byte_step v s1 lo hi b7) as (Ha2 & _); try assumption; try lia.
    { rewrite Hdb1. reflexivity. }
    rewrite Ha2, Hdb1, Hbc1, Ho1, Hba1.
    change (0 + 7 + 1 =? E2BYTECOUNT) with true. cbn [andb].
    replace (<[Z.to_nat (0 + 7):=b7]>
               (b0 :: b1 :: b2 :: b3 :: b4 :: b5 :: b6 :: drop 7 (bytearray s)))
      with (([b0; b1; b2; b3; b4; b5; b6] ++ [b7]) ++ drop 8 (bytearray s)).
    + reflexivity.
    + destruct (bytearray s) as [|a0 [|a1 [|a2 [|a3 [|a4 [|a5 [|a6 [|a7 [|a8 [|]]]]]]]]]];
        try discriminate Hlen. reflexivity.
  - destruct bytes as [|b0 [|b1 [|b2 [|b3 [|b4 [|b5 [|b6 [|b7 [|]]]]]]]]];
      try discriminate Hlb.
    change [b0; b1; b2; b3; b4; b5; b6; b7] with ([b0; b1; b2; b3; b4; b5; b6] ++ [b7]) in *.
    apply Forall_app in Hall as [Hall7 Hall1]. apply Forall_cons in Hall1 as [Hb7 _].
    rewrite frame_samples_app, run_app.
    destruct (bytes_step v lo hi [b0; b1; b2; b3; b4; b5; b6] s [] (bytearray s))
      as (Ha & Hc & Hp1 & Hf1); try assumption; try reflexivity.
    { rewrite Hbc. lia. }
    { rewrite Hlen. simpl. lia. }
    set (s1 := run v s (Demo.frame_samples lo hi [b0; b1; b2; b3; b4; b5; b6])) in *.
    apply assembly_inv in Ha as (Hdb1 & Hbp1 & Hbc1 & Hbd1 & Hba1 & Ho1 & Hdc1).
    rewrite Hdb in *.
    rewrite (frame_samples_cons lo hi b7 []).
    change (Demo.frame_samples lo hi []) with (@nil Z). rewrite app_nil_r.
    destruct (byte_step v s1 lo hi b7) as (_ & _ & _ & Hf2); try assumption; try lia.
    rewrite Hdb1. reflexivity.
Qed.

(** Round trip: when the sixty-four bits of any eight bytes are received
    from the first bit boundary, the frame storage holds those bytes, and
    exactly one power line is printed if their checksum matches, none
    (and a calibration is armed) if it does not. *)
Theorem frame_round_trip v s lo hi (bytes : list Z) :
  dcenter s = 0 → frame s = 1 → prvsamp s ≤ center s →
  lo < center s → center s < hi →
  bitpos s = 0 → bytedata s = 0 → bytecount s = 0 → dbit s = 0 →
  length (bytearray s) = 9%nat → Forall (λ b, 0 ≤ b < 256) (bytearray s) →
  length bytes = 8%nat → Forall (λ b, 0 ≤ b < 256) bytes →
  let s' := run v s (Demo.frame_samples lo hi bytes) in
  take 8 (bytearray s') = bytes
  ∧ (valid bytes →
       out s' = out s ++ [Reading (watts v (bytearray s'))] ∧ dcenter s' = 0)
  ∧ (¬ valid bytes →
       readings (out s') = readings (out s) ∧ dcenter s' = CENTERSAMP).
Proof.
  intros Hd Hf Hp Hlo Hhi Hbp Hbd Hbc Hdb Hlen Harr Hlb Hall.
  destruct (frame_received v s lo hi bytes) as (Ha & _ & Hfb); try assumption.
  cbv zeta in *.
  apply assembly_inv in Ha as (_ & _ & _ & _ & Hba & Ho & Hdc).
  rewrite Hba, Ho, Hdc.
  split; [|split].
  - rewrite take_app_length'; [reflexivity|now rewrite Hlb].
  - intros Hv. apply (valid_frame_prefix bytes (drop 8 (bytearray s)) Hlb) in Hv.
    rewrite (calculate_watts_valid v _ Hfb Hv). auto.
  - intros Hv.
    assert (Hv' : ¬ valid (bytes ++ drop 8 (bytearray s))).
    { intros H. apply Hv. now apply (valid_frame_prefix bytes (drop 8 (bytearray s)) Hlb). }
    destruct (calculate_watts_invalid v _ Hfb Hv') as [H0 Hr].
    rewrite H0. split; [|reflexivity].
    unfold readings in *. rewrite omap_app, Hr. apply app_nil_r.
Qed.

Lemma frame_round_trip_witness :
  take 8 (bytearray (run EfergyLog (Demo.framing EfergyLog)
                       (Demo.frame_samples (-1000) 1000 Demo.good_frame)))
  = Demo.good_frame.
Proof.
  pose proof (frame_round_trip EfergyLog (Demo.framing EfergyLog) (-1000) 1000
                Demo.good_frame) as H.
  cbv zeta in H.
  destruct H as (H & _).
  - vm_compute. reflexivity.
  - vm_compute. reflexivity.
  - vm_compute. discriminate.
  - vm_compute. reflexivity.
  - vm_compute. reflexivity.
  - vm_compute. reflexivity.
  - vm_compute. reflexivity.
  - vm_compute. reflexivity.
  - vm_compute. reflexivity.
  - vm_compute. reflexivity.
  - vm_compute. repeat (apply Forall_cons; split; [split; congruence|]). apply Forall_nil_2.
  - reflexivity.
  - repeat (apply Forall_cons; split; [vm_compute; split; congruence|]). apply Forall_nil_2.
  - exact H.
Defined.

(** ** A whole transmission *)

Lemma total_replicate n x : total (replicate n x) = Z.of_nat n * x.
Proof.
  unfold total. induction n as [|n IH]; [reflexivity|].
  cbn [replicate foldr]. rewrite IH. lia.
Qed.

(** The decoder after a warm-up at a constant level. *)
Lemma warmup_state v mid :
  let c := run v init (replicate 100 mid) in
  dcenter c = 0 ∧ center c = mid ∧ framing_cleared c ∧ out c = []
  ∧ bytearray c = replicate 9 0 ∧ prvsamp c = mid.
Proof.
  cbv zeta.
  destruct (calibration_completes v init (replicate 100 mid)) as (Hd & Hc & Hf & Ho & Hb);
    [reflexivity|reflexivity|].
  rewrite total_replicate in Hc. change (center init) with 0 in Hc.
  replace (0 + Z.of_nat 100 * mid) with (mid * CENTERSAMP) in Hc
    by (unfold CENTERSAMP; lia).
  rewrite Z.quot_mul in Hc by (unfold CENTERSAMP; lia).
  split; [exact Hd|]. split; [exact Hc|]. split; [exact Hf|]. split; [exact Ho|].
  split; [exact Hb|].
  change (replicate 100 mid) with (mid :: replicate 99 mid).
  rewrite replicate_cons_app, run_snoc. apply prvsamp_tick.
Qed.

(** A sample at or below the centre after another one: nothing happens. *)
Lemma tick_idle v s x :
  dcenter s = 0 → preamble s = 0 → prvsamp s ≤ center s → x ≤ center s →
  assembly (tick v s x) = assembly s ∧ center (tick v s x) = center s
  ∧ frame (tick v s x) = frame s ∧ preamble (tick v s x) = 0.
Proof.
  intros Hd Hpre Hp Hx. unfold tick, cases, handoff, positive_edge, continuing_high,
    negative_edge, assembly.
  simp_state. split_ifs; simp_state; repeat split; try reflexivity; lia.
Qed.

(** End to end: after a warm-up of [CENTERSAMP] samples at any level, a
    preamble run of 45 samples and the sixty-four bits of any eight bytes
    (5-sample runs for 0, 10-sample runs for 1), the decoder has stored
    those bytes and printed exactly the line of [calculate_watts] for them:
    one power line if the checksum matches, no power line otherwise. *)
Theorem transmission_end_to_end v mid (bytes : list Z) :
  length bytes = 8%nat → Forall (λ b, 0 ≤ b < 256) bytes →
  let s := run v init (Demo.transmission mid bytes) in
  bytearray s = bytes ++ [0]
  ∧ out s = snd (calculate_watts v (bytes ++ [0]))
  ∧ (valid bytes → out s = [Reading (watts v (bytes ++ [0]))] ∧ dcenter s = 0)
  ∧ (¬ valid bytes → readings (out s) = [] ∧ dcenter s = CENTERSAMP).
Proof.
  intros Hlb Hall. cbv zeta. unfold Demo.transmission, Demo.preamble_run, Demo.pulse.
  rewrite run_app.
  destruct (warmup_state v mid) as (Hd & Hc & Hf & Ho & Hb & Hp).
  set (c := run v init (replicate 100 mid)) in *.
  destruct Hf as (Hh & Hbd & Hbp & Hbc & Hdb & Hpre & Hfr).
  change ((mid - 1000 :: replicate 45 (mid + 1000) ++ [mid - 1000])
            ++ Demo.frame_samples (mid - 1000) (mid + 1000) bytes)
    with ([mid - 1000] ++ (replicate 45 (mid + 1000) ++ [mid - 1000])
            ++ Demo.frame_samples (mid - 1000) (mid + 1000) bytes).
  rewrite run_app. change (run v c [mid - 1000]) with (tick v c (mid - 1000)).
  destruct (tick_idle v c (mid - 1000)) as (Ha1 & Hc1 & Hf1 & Hp1); try lia.
  set (c1 := tick v c (mid - 1000)) in *.
  apply assembly_inv in Ha1 as (Hdb1 & Hbp1 & Hbc1 & Hbd1 & Hba1 & Ho1 & Hd1).
  rewrite run_app.
  destruct (preamble_run_effect v c1 (replicate 45 (mid + 1000)) (mid - 1000))
    as (Ha2 & Hpre2 & Hh2 & Hf2 & Hc2 & Hp2); try lia;
    try (change (prvsamp c1) with (mid - 1000); lia); try (apply Forall_replicate; lia).
  set (c2 := run v c1 (replicate 45 (mid + 1000) ++ [mid - 1000])) in *.
  rewrite length_replicate in Hf2. change (PREAMBLE_COUNT <? Z.of_nat 45 - 1) with true in Hf2.
  apply assembly_inv in Ha2 as (Hdb2 & Hbp2 & Hbc2 & Hbd2 & Hba2 & Ho2 & Hd2).
  destruct (frame_received v c2 (mid - 1000) (mid + 1000) bytes) as (Ha & _ & Hfb);
    try assumption; try lia;
    try (rewrite Hba2, Hba1, Hb; reflexivity);
    try (rewrite Hba2, Hba1, Hb; apply Forall_replicate; lia).
  cbv zeta in Ha, Hfb. rewrite Hba2, Hba1, Hb in Ha, Hfb. rewrite Ho2, Ho1, Ho in Ha.
  change (drop 8 (replicate 9 0)) with [0] in Ha, Hfb. rewrite app_nil_l in Ha.
  apply assembly_inv in Ha as (_ & _ & _ & _ & Hba & Hout & Hdc).
  rewrite Hba, Hout, Hdc.
  split; [reflexivity|]. split; [reflexivity|]. split.
  - intros Hv. apply (valid_frame_prefix bytes [0] Hlb) in Hv.
    rewrite (calculate_watts_valid v _ Hfb Hv). auto.
  - intros Hv.
    assert (Hv' : ¬ valid (bytes ++ [0])).
    { intros H. apply Hv. now apply (valid_frame_prefix bytes [0] Hlb). }
    destruct (calculate_watts_invalid v _ Hfb Hv') as [H0 Hr].
    rewrite H0. auto.
Qed.

Lemma transmission_end_to_end_witness :
  out (run EfergyLog init (Demo.transmission 0 Demo.good_frame))
  = snd (calculate_watts EfergyLog (Demo.good_frame ++ [0])).
Proof.
  pose proof (transmission_end_to_end EfergyLog 0 Demo.good_frame) as H.
  cbv zeta in H. destruct H as (_ & H & _).
  - reflexivity.
  - repeat (apply Forall_cons; split; [vm_compute; split; congruence|]). apply Forall_nil_2.
  - exact H.
Defined.

(** ** After a complete frame *)

(** Once sixty-four bits have been received the decoder keeps framing; the
    next high run with a pulse counter above [MINLOWBIT] is taken as a
    sixty-fifth bit, which clears the counters and both flags.  Even when
    that run is a preamble, framing is off after it. *)
Theorem run_after_full_frame_rearms v history (highs : list Z) low :
  dcenter (run v init history) = 0 → frame (run v init history) = 1 →
  dbit (run v init history) = FRAMEBITCOUNT →
  prvsamp (run v init history) ≤ center (run v init history) →
  Forall (λ x, center (run v init history) < x) highs →
  MINLOWBIT + 2 ≤ Z.of_nat (length highs) → low < center (run v init history) →
  let s' := run v (run v init history) (highs ++ [low]) in
  frame s' = 0 ∧ preamble s' = 0 ∧ dbit s' = 0 ∧ bytecount s' = 0 ∧ bitpos s' = 0
  ∧ out s' = out (run v init history).
Proof.
  intros Hd Hf Hdb Hp Hall Hn Hlow. cbv zeta.
  pose proof (invariant_reachable v history) as Hinv.
  set (s := run v init history) in *.
  destruct (run_highs_from_low v highs s Hd Hp) as (Ha & Hc & Hp' & Hf' & Hh);
    [intros ->; simpl in Hn; unfold MINLOWBIT in Hn; lia|exact Hall|].
  rewrite run_snoc. set (t := run v s highs) in *.
  apply assembly_inv in Ha as (Hdb1 & Hbp1 & Hbc1 & Hbd1 & Hba1 & Ho1 & Hd1).
  specialize (Hf' Hf). destruct Hinv. consts.
  unfold tick, cases, handoff, classify_bit, store_byte, reset_frame,
    positive_edge, continuing_high, negative_edge.
  simp_state. consts. rewrite Hd1, Hf', Hh, Hdb1, Hbp1, Hc.
  destruct (calculate_watts v _) as [ok lines].
  split_ifs; simp_state; repeat split; try reflexivity; try lia; congruence.
Qed.

Lemma run_after_full_frame_rearms_witness :
  frame (run EfergyLog (run EfergyLog init (Demo.transmission 0 Demo.good_frame))
           (replicate 45 1000 ++ [-1000])) = 0.
Proof.
  pose proof (run_after_full_frame_rearms EfergyLog (Demo.transmission 0 Demo.good_frame)
                (replicate 45 1000) (-1000)) as H.
  cbv zeta in H. destruct H as (H & _).
  - vm_compute. reflexivity.
  - vm_compute. reflexivity.
  - vm_compute. reflexivity.
  - vm_compute. discriminate.
  - vm_compute. repeat (apply Forall_cons; split; [reflexivity|]). apply Forall_nil_2.
  - vm_compute. discriminate.
  - vm_compute. reflexivity.
  - exact H.
Defined.

(** ** The sample source *)

Lemma read_sample_bytes x :
  -32768 ≤ x < 32768 → read_sample (x mod 256) ((x / 256) mod 256) = x.
Proof.
  intros Hx. unfold read_sample, int16_t.
  rewrite Z.lor_comm, big_endian_16 by (apply Z.mod_pos_bound; lia).
  replace ((x / 256) mod 256 * 256 + x mod 256) with (x mod 65536).
  - destruct (Z.ltb_spec x 0).
    + rewrite <- (Z.mod_add (x mod 65536 + 32768) (-1) 65536) by lia.
      rewrite <- (Z.mod_add x 1 65536) by lia.
      rewrite (Z.mod_small (x + 1 * 65536)) by lia.
      rewrite Z.mod_small by lia. lia.
    + rewrite (Z.mod_small x 65536) by lia. rewrite Z.mod_small by lia. lia.
  - change 65536 with (256 * 256). rewrite Z.rem_mul_r by lia. lia.
Qed.

(** A stream of whole samples is read back as those samples, low byte
    first, followed by one more sample, -1: the loop tests [feof] before
    reading, so it runs once on the failed read at the end of the stream. *)
Theorem samples_of_bytes_round_trip (samples : list Z) :
  Forall (λ x, -32768 ≤ x < 32768) samples →
  samples_of_bytes (Demo.bytes_of_samples samples) = samples ++ [-1].
Proof.
  induction 1 as [|x samples Hx _ IH]; [reflexivity|].
  unfold Demo.bytes_of_samples in *. cbn [map concat Demo.bytes_of_sample app].
  cbn [samples_of_bytes]. rewrite IH, read_sample_bytes by exact Hx. reflexivity.
Qed.

Lemma samples_of_bytes_round_trip_witness :
  samples_of_bytes (Demo.bytes_of_samples [5; -7; 300]) = [5; -7; 300] ++ [-1].
Proof.
  apply (samples_of_bytes_round_trip [5; -7; 300]).
  repeat (apply Forall_cons; split; [lia|]). apply Forall_nil_2.
Defined.

(** Whatever the bytes, a sample read is a 16-bit value, and a byte stream
    of [n] bytes gives [n / 2 + 1] iterations of the loop. *)
Lemma samples_of_bytes_shape (bs : list Z) :
  Forall (λ x, -32768 ≤ x < 32768) (samples_of_bytes bs)
  ∧ length (samples_of_bytes bs) = S (length bs / 2).
Proof.
  assert (Hr : ∀ lo hi, -32768 ≤ read_sample lo hi < 32768).
  { intros lo hi. unfold read_sample, int16_t.
    pose proof (Z.mod_pos_bound (Z.lor lo (Z.shiftl hi 8) + 32768) 65536). lia. }
  assert (Hgen : ∀ n (l : list Z), (length l < n)%nat →
            Forall (λ x, -32768 ≤ x < 32768) (samples_of_bytes l)
            ∧ length (samples_of_bytes l) = S (length l / 2)).
  { induction n as [|n IH]; intros l Hl; [lia|].
    destruct l as [|lo [|hi rest]].
    - split; [repeat constructor; apply Hr|reflexivity].
    - split; [repeat constructor; apply Hr|reflexivity].
    - destruct (IH rest) as [Hf Hlen]; [simpl in Hl; lia|].
      cbn [samples_of_bytes]. split; [constructor; [apply Hr|exact Hf]|].
      cbn [length]. rewrite Hlen. f_equal.
      change (S (S (length rest))) with (1 * 2 + length rest)%nat.
      rewrite Nat.div_add_l by lia. lia. }
  apply (Hgen (S (length bs))). lia.
Qed.

(** On every byte stream, the centre accumulator of [main] stays far inside
    a 32-bit [long]. *)
Theorem main_center_fits_long v (stdin : list Z) :
  - 3309900 ≤ center (main v stdin) ≤ 3309900.
Proof.
  unfold main. apply center_fits_long.
  eapply Forall_impl; [apply samples_of_bytes_shape|]. simpl. lia.
Qed.

(** ** The analysis decoder *)

Section DecoderFacts.
Import Analysis.

Lemma decode_loop_ignores_noise (store : list Z) : ∀ bitpos bytedata bytecount bytes,
  decode_loop (filter (λ p, MINLOWBIT < p) store) bitpos bytedata bytecount bytes
  = decode_loop store bitpos bytedata bytecount bytes.
Proof.
  induction store as [|p store IH]; intros bitpos bytedata bytecount bytes; [reflexivity|].
  rewrite filter_cons. destruct (decide (MINLOWBIT < p)) as [Hp|Hp].
  - cbn [decode_loop]. destruct (MINLOWBIT <? p) eqn:E; [|lia].
    destruct (7 <? bitpos + 1); [|apply IH].
    destruct (bytecount + 1 =? ANALYZEBYTECOUNT); [reflexivity|apply IH].
  - cbn [decode_loop]. destruct (MINLOWBIT <? p) eqn:E; [lia|]. apply IH.
Qed.

(** Counts of at most [MINLOWBIT] are skipped: removing them from the
    store, wherever they are, does not change what is decoded. *)
Theorem decode_ignores_noise (store : list Z) :
  decode_bytes_from_pulse_counts (filter (λ p, MINLOWBIT < p) store)
  = decode_bytes_from_pulse_counts store.
Proof. apply decode_loop_ignores_noise. Qed.

(** The decoding loop from any bit position and byte count. *)
Lemma decode_loop_shape (store : list Z) : ∀ bitpos bytedata bytecount (bytes : list Z),
  0 ≤ bitpos ≤ 7 → 0 ≤ bytecount < ANALYZEBYTECOUNT →
  length bytes = Z.to_nat ANALYZEBYTECOUNT → Forall (λ b, 0 ≤ b < 256) bytes →
  fst (decode_loop store bitpos bytedata bytecount bytes)
  = Z.min ANALYZEBYTECOUNT
      (bytecount + (bitpos + Z.of_nat (length (filter (λ p, MINLOWBIT < p) store))) / 8)
  ∧ length (snd (decode_loop store bitpos bytedata bytecount bytes))
    = Z.to_nat ANALYZEBYTECOUNT
  ∧ Forall (λ b, 0 ≤ b < 256) (snd (decode_loop store bitpos bytedata bytecount bytes)).
Proof.
  unfold ANALYZEBYTECOUNT.
  induction store as [|p store IH]; intros bitpos bytedata bytecount bytes Hbp Hbc Hlen Hall.
  - cbn [decode_loop filter length fst snd].
    rewrite Z.add_0_r, Z.div_small by lia. split; [lia|auto].
  - cbn [decode_loop]. change ANALYZEBYTECOUNT with 9. rewrite filter_cons.
    destruct (decide (MINLOWBIT < p)) as [Hp|Hp];
      (destruct (MINLOWBIT <? p) eqn:E; [|]); try lia.
    + rewrite length_cons.
      set (n := Z.of_nat (length (filter (λ p, MINLOWBIT < p) store))).
      assert (Hn : 0 ≤ n) by lia.
      replace (Z.of_nat (S (length (filter (λ p, MINLOWBIT < p) store)))) with (n + 1) by lia.
      set (byte := if MINHIGHBIT <? p then Z.lor (uchar (Z.shiftl bytedata 1)) 1
                   else uchar (Z.shiftl bytedata 1)).
      assert (Hbyte : 0 ≤ byte < 256).
      { unfold byte. rewrite (lor_shift_bit bytedata (MINHIGHBIT <? p)).
        apply Z.mod_pos_bound. lia. }
      destruct (7 <? bitpos + 1) eqn:E7.
      * assert (bitpos = 7) as -> by lia.
        destruct (bytecount + 1 =? 9) eqn:E9.
        -- cbn [fst snd]. rewrite length_insert. split; [|split; [exact Hlen|]].
           ++ assert (0 ≤ (7 + (n + 1)) / 8) by (apply Z.div_pos; lia).
              assert (1 ≤ (7 + (n + 1)) / 8).
              { replace (7 + (n + 1)) with (n + 1 * 8) by lia.
                rewrite Z.div_add by lia. pose proof (Z.div_pos n 8). lia. }
              lia.
           ++ apply Forall_insert; assumption.
        -- destruct (IH 0 0 (bytecount + 1) (<[Z.to_nat bytecount := byte]> bytes))
             as (H1 & H2 & H3); try lia.
           { rewrite length_insert. exact Hlen. }
           { apply Forall_insert; assumption. }
           fold n in H1. rewrite H1. split; [|auto].
           replace (7 + (n + 1)) with (n + 1 * 8) by lia.
           rewrite Z.div_add by lia. rewrite Z.add_0_l. lia.
      * destruct (IH (bitpos + 1) byte bytecount bytes) as (H1 & H2 & H3); try lia;
          try assumption.
        fold n in H1. rewrite H1. split; [|auto].
        replace (bitpos + (n + 1)) with (bitpos + 1 + n) by lia. reflexivity.
    + destruct (IH bitpos bytedata bytecount bytes) as (H1 & H2 & H3); try lia;
        try assumption.
      split; [exact H1|auto].
Qed.

(** The decoder returns between 0 and [ANALYZEBYTECOUNT] bytes, in a
    buffer of [ANALYZEBYTECOUNT] 8-bit values; the number of bytes is the
    number of counts above [MINLOWBIT] divided by eight, capped at
    [ANALYZEBYTECOUNT]: a trailing group of fewer than eight bits is not
    reported. *)
Theorem decode_returns_whole_bytes (store : list Z) :
  let r := decode_bytes_from_pulse_counts store in
  fst r = Z.min ANALYZEBYTECOUNT
            (Z.of_nat (length (filter (λ p, MINLOWBIT < p) store)) / 8)
  ∧ length (snd r) = Z.to_nat ANALYZEBYTECOUNT
  ∧ Forall (λ b, 0 ≤ b < 256) (snd r).
Proof.
  cbv zeta. unfold decode_bytes_from_pulse_counts.
  destruct (decode_loop_shape store 0 0 0 (replicate (Z.to_nat ANALYZEBYTECOUNT) 0))
    as (H1 & H2 & H3); try (unfold ANALYZEBYTECOUNT; lia).
  - apply length_replicate.
  - apply Forall_replicate. lia.
  - rewrite H1, !Z.add_0_l. auto.
Qed.

(** The eight counts of one byte, at a byte boundary. *)
Lemma decode_loop_byte b (more : list Z) k (buf : list Z) :
  0 ≤ b < 256 →
  decode_loop (Demo.frame_widths [b] ++ more) 0 0 k buf
  = (if k + 1 =? ANALYZEBYTECOUNT then (k + 1, <[Z.to_nat k := b]> buf)
     else decode_loop more 0 0 (k + 1) (<[Z.to_nat k := b]> buf)).
Proof.
  intros Hb. pose proof (shift_in_byte_bits b Hb) as Hval.
  unfold Demo.frame_widths, Demo.byte_bits in *. cbn [map concat app] in *.
  revert Hval.
  generalize (Z.testbit b 7), (Z.testbit b 6), (Z.testbit b 5), (Z.testbit b 4),
    (Z.testbit b 3), (Z.testbit b 2), (Z.testbit b 1), (Z.testbit b 0).
  intros t7 t6 t5 t4 t3 t2 t1 t0 Hval.
  destruct t7, t6, t5, t4, t3, t2, t1, t0; vm_compute in Hval; subst b; reflexivity.
Qed.

Lemma frame_widths_cons b (bytes : list Z) :
  Demo.frame_widths (b :: bytes) = Demo.frame_widths [b] ++ Demo.frame_widths bytes.
Proof.
  unfold Demo.frame_widths. cbn [map concat]. now rewrite app_nil_r, map_app.
Qed.

Lemma decode_loop_bytes (bytes : list Z) : ∀ (done rest : list Z),
  (length done + length bytes ≤ 9)%nat → (length bytes ≤ length rest)%nat →
  Forall (λ b, 0 ≤ b < 256) bytes →
  decode_loop (Demo.frame_widths bytes) 0 0 (Z.of_nat (length done)) (done ++ rest)
  = (Z.of_nat (length done + length bytes), done ++ bytes ++ drop (length bytes) rest).
Proof.
  induction bytes as [|b bytes IH]; intros done rest Hlen Hrest Hall.
  - cbn [Demo.frame_widths concat map decode_loop length drop app].
    now rewrite Nat.add_0_r.
  - apply Forall_cons in Hall as [Hb Hall]. cbn [length] in Hlen, Hrest.
    destruct rest as [|r rest]; [simpl in Hrest; lia|]. cbn [length] in Hrest.
    rewrite frame_widths_cons, decode_loop_byte by exact Hb.
    rewrite Nat2Z.id, insert_app_r_alt, Nat.sub_diag by lia.
    change (<[0%nat:=b]> (r :: rest)) with (b :: rest).
    replace (done ++ b :: rest) with ((done ++ [b]) ++ rest) by now rewrite <- app_assoc.
    replace (Z.of_nat (length done) + 1) with (Z.of_nat (length (done ++ [b])))
      by (rewrite length_app; simpl; lia).
    destruct (Z.of_nat (length (done ++ [b])) =? ANALYZEBYTECOUNT) eqn:E.
    + rewrite length_app in E. unfold ANALYZEBYTECOUNT in E. cbn [length] in E.
      destruct bytes; [|cbn [length] in Hlen; lia].
      cbn [length drop app]. rewrite length_app. cbn [length].
      f_equal; try lia; now rewrite <- app_assoc.
    + rewrite IH; [|rewrite length_app; simpl; lia|lia|exact Hall].
      rewrite length_app. cbn [length drop].
      f_equal; try (f_equal; lia); now rewrite <- !app_assoc.
Qed.

(** Round trip: the counts of up to nine bytes (5 for a 0 bit, 10 for a 1
    bit, most significant bit first) decode to those bytes, the rest of the
    buffer staying zero. *)
Theorem decode_round_trip (bytes : list Z) :
  (length bytes ≤ 9)%nat → Forall (λ b, 0 ≤ b < 256) bytes →
  decode_bytes_from_pulse_counts (Demo.frame_widths bytes)
  = (Z.of_nat (length bytes), bytes ++ replicate (9 - length bytes) 0).
Proof.
  intros Hlen Hall. unfold decode_bytes_from_pulse_counts.
  change (Z.to_nat ANALYZEBYTECOUNT) with 9%nat.
  pose proof (decode_loop_bytes bytes [] (replicate 9 0)) as H.
  cbn [app length Nat.add] in H. change (Z.of_nat 0) with 0 in H.
  rewrite H; try assumption; try (rewrite ?length_replicate; lia).
  now rewrite drop_replicate.
Qed.

Lemma decode_round_trip_witness :
  decode_bytes_from_pulse_counts (Demo.frame_widths Demo.good_frame)
  = (Z.of_nat (length Demo.good_frame), Demo.good_frame ++ replicate (9 - length Demo.good_frame) 0).
Proof.
  apply (decode_round_trip Demo.good_frame).
  - vm_compute. lia.
  - repeat (apply Forall_cons; split; [vm_compute; split; congruence|]). apply Forall_nil_2.
Defined.

(** ** The pulse loop of the analysis *)

(** The pulse loop from any state of its counters and stores. *)
Lemma count_runs_conserved c (samples : list Z) : ∀ r,
  0 ≤ pulse_count r → 0 ≤ space_count r →
  Forall (λ n, 0 < n) (pulse_count_storage r) →
  Forall (λ n, 0 < n) (space_count_storage r) →
  let r' := foldl (count_step c) r samples in
  total (pulse_count_storage r') + total (space_count_storage r')
    + pulse_count r' + space_count r'
  = total (pulse_count_storage r) + total (space_count_storage r)
    + pulse_count r + space_count r + Z.of_nat (length samples)
  ∧ 0 ≤ pulse_count r' ∧ 0 ≤ space_count r'
  ∧ Forall (λ n, 0 < n) (pulse_count_storage r')
  ∧ Forall (λ n, 0 < n) (space_count_storage r').
Proof.
  induction samples as [|x samples IH]; intros r Hp Hs Hfp Hfs.
  - cbn [foldl length]. cbv zeta. repeat split; auto; lia.
  - cbn [foldl]. cbv zeta.
    assert (Hstep : total (pulse_count_storage (count_step c r x))
                    + total (space_count_storage (count_step c r x))
                    + pulse_count (count_step c r x) + space_count (count_step c r x)
                    = total (pulse_count_storage r) + total (space_count_storage r)
                      + pulse_count r + space_count r + 1
                    ∧ 0 ≤ pulse_count (count_step c r x)
                    ∧ 0 ≤ space_count (count_step c r x)
                    ∧ Forall (λ n, 0 < n) (pulse_count_storage (count_step c r x))
                    ∧ Forall (λ n, 0 < n) (space_count_storage (count_step c r x))).
    { unfold count_step.
      destruct (x - c <? 0);
        cbn [pulse_count space_count pulse_count_storage space_count_storage].
      - destruct (0 <? pulse_count r) eqn:E.
        + rewrite total_snoc. repeat split; auto; try lia.
          apply Forall_app. split; [exact Hfp|]. apply Forall_singleton. lia.
        + repeat split; auto; lia.
      - destruct (0 <? space_count r) eqn:E.
        + rewrite total_snoc. repeat split; auto; try lia.
          apply Forall_app. split; [exact Hfs|]. apply Forall_singleton. lia.
        + repeat split; auto; lia. }
    destruct Hstep as (H1 & H2 & H3 & H4 & H5).
    destruct (IH (count_step c r x) H2 H3 H4 H5) as (H6 & H7).
    cbv zeta in H6. rewrite H6, H1, length_cons. split; [lia|exact H7].
Qed.

Lemma total_positive_length (l : list Z) :
  Forall (λ n, 0 < n) l → Z.of_nat (length l) ≤ total l.
Proof.
  unfold total. induction 1 as [|n l Hn _ IH]; [reflexivity|].
  cbn [length foldr]. lia.
Qed.

(** Every sample is counted once: the stored runs and the two runs in
    progress add up to the number of samples, and every stored run is
    positive.  The two stores together never hold more entries than there
    are samples, so they stay inside their [SAMPLE_STORE_SIZE] arrays. *)
Theorem count_runs_counts_each_sample c (samples : list Z) :
  let r := count_runs c samples in
  total (pulse_count_storage r) + total (space_count_storage r)
    + pulse_count r + space_count r = Z.of_nat (length samples)
  ∧ Forall (λ n, 0 < n) (pulse_count_storage r)
  ∧ Forall (λ n, 0 < n) (space_count_storage r)
  ∧ (length (pulse_count_storage r) + length (space_count_storage r) ≤ length samples)%nat.
Proof.
  cbv zeta. unfold count_runs.
  destruct (count_runs_conserved c samples (mkRuns 0 0 [] []))
    as (H1 & H2 & H3 & H4 & H5); try (simpl; lia); try apply Forall_nil_2.
  cbv zeta in H1.
  cbn [pulse_count_storage space_count_storage pulse_count space_count] in H1.
  change (total []) with 0 in H1.
  pose proof (total_positive_length _ H4). pose proof (total_positive_length _ H5).
  repeat split; auto; lia.
Qed.

End DecoderFacts.

(** ** The preamble search and the rounds of the analysis mode *)

Section SearchFacts.
Import Analysis.

(** The two observations of the search agree. *)
Lemma find_preamble_break c (stdin : list Z) : ∀ prvsamp p n,
  find_preamble c prvsamp p n stdin
  = match preamble_break c prvsamp p n stdin with
    | Some k => drop k stdin
    | None => []
    end.
Proof.
  induction stdin as [|x stdin IH]; intros prvsamp p n; [reflexivity|].
  cbn [find_preamble preamble_break].
  repeat match goal with
    | |- context [if ?b then _ else _] => destruct b
    end;
    try reflexivity; rewrite IH; destruct (preamble_break _ _ _ _ _); reflexivity.
Qed.

(** On one side of the centre the search never breaks, from any state
    whose count for the other side is not above its minimum. *)
Lemma one_sided_no_break c (stdin : list Z) :
  (∀ prvsamp p n, n ≤ MIN_NEGATIVE_PREAMBLE_SAMPLES →
     Forall (λ x, c ≤ x) stdin → preamble_break c prvsamp p n stdin = None)
  ∧ (∀ prvsamp p n, p ≤ MIN_POSITIVE_PREAMBLE_SAMPLES →
     Forall (λ x, x < c) stdin → preamble_break c prvsamp p n stdin = None).
Proof.
  unfold MIN_NEGATIVE_PREAMBLE_SAMPLES, MIN_POSITIVE_PREAMBLE_SAMPLES.
  split; induction stdin as [|x stdin IH]; intros prvsamp p n Hn Hall;
    try reflexivity; apply Forall_cons in Hall as [Hx Hall]; cbn [preamble_break];
    unfold MIN_NEGATIVE_PREAMBLE_SAMPLES, MIN_POSITIVE_PREAMBLE_SAMPLES.
  - destruct ((c <=? prvsamp) && (c <=? x)) eqn:E; [rewrite IH by auto; reflexivity|].
    destruct ((prvsamp <? c) && (x <? c)) eqn:E2; [lia|].
    destruct ((c <=? prvsamp) && (x <? c)) eqn:E3; [lia|].
    destruct ((prvsamp <? c) && (c <=? x)) eqn:E4; [|lia].
    destruct ((40 <? p) && (40 <? n)) eqn:E5; [lia|]. rewrite IH by auto. reflexivity.
  - destruct ((c <=? prvsamp) && (c <=? x)) eqn:E; [lia|].
    destruct ((prvsamp <? c) && (x <? c)) eqn:E2; [rewrite IH by auto; reflexivity|].
    destruct ((c <=? prvsamp) && (x <? c)) eqn:E3; [|lia].
    destruct ((40 <? p) && (40 <? n)) eqn:E5; [lia|]. rewrite IH by auto. reflexivity.
Qed.

(** A stream that stays on one side of the centre (all samples at or above
    it, or all below it) never shows a preamble, whatever the centre: the
    search, started as the code starts it, reads the stream to its end
    without taking the [break], and the round prints nothing. *)
Theorem find_preamble_needs_both_polarities c (stdin : list Z) :
  Forall (λ x, c ≤ x) stdin ∨ Forall (λ x, x < c) stdin →
  preamble_break c 0 0 0 stdin = None
  ∧ find_preamble c 0 0 0 stdin = []
  ∧ ∀ g, analysis_wavecenter g = c → (round g stdin).1.2 = [].
Proof.
  intros Hside.
  assert (Hnone : preamble_break c 0 0 0 stdin = None).
  { destruct (one_sided_no_break c stdin) as [Hpos Hneg].
    destruct Hside as [Hall|Hall]; [apply Hpos|apply Hneg]; auto;
      unfold MIN_NEGATIVE_PREAMBLE_SAMPLES, MIN_POSITIVE_PREAMBLE_SAMPLES; lia. }
  assert (Hnil : find_preamble c 0 0 0 stdin = []).
  { rewrite find_preamble_break, Hnone. reflexivity. }
  split; [exact Hnone|]. split; [exact Hnil|].
  intros g Hg. unfold round. rewrite Hg, Hnil. reflexivity.
Qed.

Lemma find_preamble_needs_both_polarities_witness :
  preamble_break 0 0 0 0 (replicate 200 (-5)) = None
  ∧ find_preamble 0 0 0 0 (replicate 200 (-5)) = []
  ∧ ∀ g, analysis_wavecenter g = 0 → (round g (replicate 200 (-5))).1.2 = [].
Proof.
  apply (find_preamble_needs_both_polarities 0 (replicate 200 (-5))).
  right. apply Forall_replicate. lia.
Defined.

(** The search from any state: a lower bound on the number of samples read
    up to the [break], and on the samples of each side among them. *)
Lemma preamble_break_cost c (stdin : list Z) : ∀ prvsamp p n k,
  0 ≤ p → 0 ≤ n → preamble_break c prvsamp p n stdin = Some k →
  (if c <=? prvsamp
   then Z.max 0 (41 - p) + (if 40 <? n then 1 else 43)
   else Z.max 0 (41 - n) + (if 40 <? p then 1 else 43)) ≤ Z.of_nat k
  ∧ (k ≤ length stdin)%nat
  ∧ 41 ≤ p + Z.of_nat (length (filter (λ x, c ≤ x) (take k stdin)))
  ∧ 41 ≤ n + Z.of_nat (length (filter (λ x, x < c) (take k stdin))).
Proof.
  induction stdin as [|x stdin IH]; intros prvsamp p n k Hp Hn Hk; [discriminate|].
  cbn [preamble_break] in Hk.
  unfold MIN_NEGATIVE_PREAMBLE_SAMPLES, MIN_POSITIVE_PREAMBLE_SAMPLES in Hk.
  assert (Hrec : ∀ p' n', 0 ≤ p' → 0 ≤ n' →
            S <$> preamble_break c x p' n' stdin = Some k →
            ∃ k', k = S k' ∧
              (if c <=? x
               then Z.max 0 (41 - p') + (if 40 <? n' then 1 else 43)
               else Z.max 0 (41 - n') + (if 40 <? p' then 1 else 43)) ≤ Z.of_nat k'
              ∧ (k' ≤ length stdin)%nat
              ∧ 41 ≤ p' + Z.of_nat (length (filter (λ x, c ≤ x) (take k' stdin)))
              ∧ 41 ≤ n' + Z.of_nat (length (filter (λ x, x < c) (take k' stdin)))).
  { intros p' n' Hp' Hn' H. destruct (preamble_break c x p' n' stdin) as [k'|] eqn:E;
      [|discriminate]. injection H as <-. exists k'. split; [reflexivity|].
    apply (IH x p' n' k' Hp' Hn' E). }
  assert (Hcount : ∀ k', 
     Z.of_nat (length (filter (λ x, c ≤ x) (take (S k') (x :: stdin))))
     = (if c <=? x then 1 else 0) + Z.of_nat (length (filter (λ x, c ≤ x) (take k' stdin)))
     ∧ Z.of_nat (length (filter (λ x, x < c) (take (S k') (x :: stdin))))
     = (if c <=? x then 0 else 1) + Z.of_nat (length (filter (λ x, x < c) (take k' stdin)))).
  { intros k'. cbn [take]. rewrite !filter_cons.
    destruct (decide (c ≤ x)); destruct (decide (x < c)); try lia;
      destruct (c <=? x) eqn:E; try lia; cbn [length]; lia. }
  destruct ((c <=? prvsamp) && (c <=? x)) eqn:E1.
  { destruct (Hrec (p + 1) n ltac:(lia) Hn Hk) as (k' & -> & H1 & H2 & H3 & H4).
    destruct (Hcount k') as [-> ->]. cbn [length].
    revert H1 H3 H4. split_ifs; lia. }
  destruct ((prvsamp <? c) && (x <? c)) eqn:E2.
  { destruct (Hrec p (n + 1) Hp ltac:(lia) Hk) as (k' & -> & H1 & H2 & H3 & H4).
    destruct (Hcount k') as [-> ->]. cbn [length].
    revert H1 H3 H4. split_ifs; lia. }
  destruct ((40 <? p) && (40 <? n)) eqn:Ef.
  { assert (k = 1%nat) as -> by (revert Hk; split_ifs; first [congruence|lia]).
    cbn [take length]. rewrite !filter_cons.
    destruct (decide (c ≤ x)); destruct (decide (x < c)); cbn [length];
      split_ifs; lia. }
  assert (Hk' : S <$> preamble_break c x (if c <=? x then 0 else p) (if c <=? x then n else 0)
                  stdin = Some k).
  { revert Hk. split_ifs; try lia; auto. }
  destruct (Hrec (if c <=? x then 0 else p) (if c <=? x then n else 0)
              ltac:(split_ifs; lia) ltac:(split_ifs; lia) Hk')
    as (k' & -> & H1 & H2 & H3 & H4).
  destruct (Hcount k') as [-> ->]. cbn [length].
  revert H1 H3 H4. split_ifs; lia.
Qed.

(** A search that takes the [break] has read at least 84 samples, more
    than forty of them on each side of the centre; the samples after the
    one it breaks on are left on the stream. *)
Theorem preamble_takes_84_samples c (stdin : list Z) (k : nat) :
  preamble_break c 0 0 0 stdin = Some k →
  (84 ≤ k ≤ length stdin)%nat
  ∧ (41 ≤ length (filter (λ x, (c ≤ x)%Z) (take k stdin)))%nat
  ∧ (41 ≤ length (filter (λ x, (x < c)%Z) (take k stdin)))%nat
  ∧ find_preamble c 0 0 0 stdin = drop k stdin.
Proof.
  intros Hk.
  destruct (preamble_break_cost c stdin 0 0 0 k) as (H1 & H2 & H3 & H4); [lia|lia|exact Hk|].
  rewrite find_preamble_break, Hk. change (40 <? 0) with false in H1.
  destruct (c <=? 0); repeat split; try lia.
Qed.

Lemma preamble_takes_84_samples_witness :
  let stdin := replicate 41 5 ++ replicate 42 (-5) ++ [5; 7; 7] in
  (84 ≤ 84 ≤ length stdin)%nat
  ∧ (41 ≤ length (filter (λ x, (0 ≤ x)%Z) (take 84 stdin)))%nat
  ∧ (41 ≤ length (filter (λ x, (x < 0)%Z) (take 84 stdin)))%nat
  ∧ find_preamble 0 0 0 0 stdin = drop 84 stdin.
Proof.
  apply (preamble_takes_84_samples 0 (replicate 41 5 ++ replicate 42 (-5) ++ [5; 7; 7]) 84).
  vm_compute. reflexivity.
Defined.

(** The search returns a strict suffix of a non-empty stream. *)
Lemma find_preamble_consumes c (stdin : list Z) : ∀ prvsamp p n,
  (length (find_preamble c prvsamp p n stdin) ≤ length stdin - 1)%nat.
Proof.
  induction stdin as [|x stdin IH]; intros prvsamp p n; [simpl; lia|].
  cbn [find_preamble length].
  repeat match goal with
    | |- context [if ?b then _ else _] => destruct b
    end;
    try (etransitivity; [apply IH|]); lia.
Qed.

Lemma capture_loop_consumes (stdin : list Z) : ∀ g,
  (length (capture_loop g stdin).2 ≤ length stdin)%nat.
Proof.
  induction stdin as [|x stdin IH]; intros g; [simpl; lia|].
  cbn [capture_loop sample_storage sample_store_index analysis_wavecenter].
  destruct (_ <? _).
  - etransitivity; [apply IH|]. simpl. lia.
  - destruct (analyze_efergy_message _) as [g' rep]. simpl. lia.
Qed.

(** The outermost loop ends by itself: each round reads at least one
    sample, so more fuel than there are samples changes nothing. *)
Theorem rounds_fuel_adequate (fuel : nat) : ∀ g (stdin : list Z),
  (length stdin ≤ fuel)%nat → rounds fuel g stdin = rounds (length stdin) g stdin.
Proof.
  assert (Hgen : ∀ n fuel1 fuel2 g (stdin : list Z),
            (length stdin ≤ n)%nat → (length stdin ≤ fuel1)%nat →
            (length stdin ≤ fuel2)%nat →
            rounds fuel1 g stdin = rounds fuel2 g stdin).
  { induction n as [|n IH]; intros fuel1 fuel2 g stdin Hn H1 H2.
    - destruct stdin; [|simpl in Hn; lia]. destruct fuel1, fuel2; reflexivity.
    - destruct stdin as [|x stdin]; [destruct fuel1, fuel2; reflexivity|].
      destruct fuel1 as [|fuel1]; [simpl in H1; lia|].
      destruct fuel2 as [|fuel2]; [simpl in H2; lia|].
      cbn [rounds]. unfold round, capture.
      pose proof (find_preamble_consumes (analysis_wavecenter g) (x :: stdin) 0 0 0) as Hf.
      pose proof (capture_loop_consumes
                    (find_preamble (analysis_wavecenter g) 0 0 0 (x :: stdin))
                    (mkGlobals (sample_storage g) 0 (analysis_wavecenter g))) as Hc.
      destruct (capture_loop _ _) as [[g' reps] rest]. cbn [snd] in Hc.
      cbn [length] in *. f_equal. apply IH; lia. }
  intros g stdin H. apply (Hgen (length stdin)); lia.
Qed.

Lemma rounds_fuel_adequate_witness :
  rounds 10 start [1; 2; 3] = rounds (length [1; 2; 3]) start [1; 2; 3].
Proof. apply (rounds_fuel_adequate 10 start [1; 2; 3]). simpl. lia. Defined.

(** The capture loop from any slot, on a stream too short to fill the
    buffer. *)
Lemma capture_loop_short (stdin : list Z) : ∀ g,
  0 ≤ sample_store_index g →
  sample_store_index g + Z.of_nat (length stdin) < SAMPLE_STORE_SIZE →
  (capture_loop g stdin).1.2 = [] ∧ (capture_loop g stdin).2 = [].
Proof.
  change SAMPLE_STORE_SIZE with 1368.
  induction stdin as [|x stdin IH]; intros g H0 Hlen; [auto|].
  rewrite length_cons in Hlen.
  cbn [capture_loop sample_storage sample_store_index analysis_wavecenter].
  change SAMPLE_STORE_SIZE with 1368.
  destruct (sample_store_index g <? 1368 - 1) eqn:E; [|lia].
  apply IH; cbn [sample_store_index]; lia.
Qed.

(** A capture cut short by the end of the stream prints nothing and
    leaves nothing on the stream: the buffer is only analysed when its last
    slot has been written. *)
Theorem short_capture_prints_nothing g (stdin : list Z) :
  Z.of_nat (length stdin) < SAMPLE_STORE_SIZE →
  (capture g stdin).1.2 = [] ∧ (capture g stdin).2 = [].
Proof.
  intros H. unfold capture. apply capture_loop_short; cbn [sample_store_index]; lia.
Qed.

Lemma short_capture_prints_nothing_witness :
  (capture start [1; 2; 3]).1.2 = [] ∧ (capture start [1; 2; 3]).2 = [].
Proof. apply (short_capture_prints_nothing start [1; 2; 3]). vm_compute. reflexivity. Defined.

(** For an eight-byte decode, the checksum byte shown by the analysis
    equals the last byte of the frame exactly when [calculate_watts]
    accepts the frame. *)
Theorem analysis_checksum_agrees m v (bytes : list Z) :
  frame_bytes bytes →
  (chk (display_frame_data m bytes 8) = bytes !!! 7%nat
   ↔ fst (calculate_watts v bytes) = 1).
Proof.
  intros Hfb.
  assert (Hchk : chk (display_frame_data m bytes 8) = byte_sum bytes mod 256).
  { unfold display_frame_data, byte_sum. cbn [chk].
    destruct Hfb as [Hlen Hall].
    destruct bytes as [|b0 [|b1 [|b2 [|b3 [|b4 [|b5 [|b6 [|b7 [|b8 [|]]]]]]]]]];
      try discriminate Hlen.
    change (seq 0 (Z.to_nat (8 - 1))) with [0; 1; 2; 3; 4; 5; 6]%nat.
    cbn [foldl take foldr lookup_total list_lookup_total].
    unfold uchar. Z.div_mod_to_equations. lia. }
  rewrite Hchk. fold (valid bytes).
  destruct (valid_dec bytes) as [Hv|Hv].
  - rewrite (calculate_watts_valid v bytes Hfb Hv). tauto.
  - destruct (calculate_watts_invalid v bytes Hfb Hv) as [H0 _]. rewrite H0.
    split; [tauto|discriminate].
Qed.

Lemma analysis_checksum_agrees_witness :
  chk (display_frame_data PositivePulses Demo.good_storage 8) = Demo.good_storage !!! 7%nat
  ↔ fst (calculate_watts EfergyLog Demo.good_storage) = 1.
Proof.
  exact (analysis_checksum_agrees PositivePulses EfergyLog Demo.good_storage
           frame_bytes_good_storage).
Defined.

End SearchFacts.
